(** * BMW Connected Drive integration: a shallow embedding

    The embedded code is
    [custom_components/bmw_connected_drive/__init__.py] and
    [custom_components/bmw_connected_drive/config_flow.py].

    Python values are modelled with the data the code manipulates:
    exceptions by their class (with the class hierarchy that [except]
    clauses test), dictionaries as insertion-ordered association lists,
    callbacks by an identifier and the way they terminate.  Effectful code
    is written in a small state / trace / exception monad: the trace
    records every observable call made to the host framework, to the
    logger and to callbacks. *)

From Stdlib Require Import List String Bool Arith PeanoNat Lia.
Import ListNotations.
Open Scope string_scope.
Open Scope list_scope.

Set Implicit Arguments.

(** ** Python primitives *)

Module Py.

(** Exception classes met in the two files, with their direct base class. *)
Inductive exc_class : Set :=
| BaseException
| KeyboardInterrupt
| SystemExit
| Exception
| OSError
| ConnectionError
| TimeoutError
| LookupError
| KeyError
| AttributeError
| ValueError
| HomeAssistantError
| ConfigEntryNotReady
| FlowError
| AbortFlow
| CannotConnect
| InvalidAuth.

Scheme Equality for exc_class.

Definition base (c : exc_class) : option exc_class :=
  match c with
  | BaseException => None
  | KeyboardInterrupt | SystemExit | Exception => Some BaseException
  | OSError | LookupError | AttributeError | ValueError
  | HomeAssistantError => Some Exception
  | ConnectionError | TimeoutError => Some OSError
  | KeyError => Some LookupError
  | ConfigEntryNotReady | FlowError | CannotConnect | InvalidAuth =>
      Some HomeAssistantError
  | AbortFlow => Some FlowError
  end.

(** The chain of base classes, the class itself first. *)
Fixpoint mro_upto (fuel : nat) (c : exc_class) : list exc_class :=
  c :: match fuel, base c with
       | S fuel', Some b => mro_upto fuel' b
       | _, _ => []
       end.

Definition mro (c : exc_class) : list exc_class := mro_upto 4 c.

(** [issubclass c d]: a raised [c] is caught by [except d]. *)
Definition issubclass (c d : exc_class) : bool :=
  existsb (exc_class_beq d) (mro c).

(** A call either returns a value or raises. *)
Inductive outcome (A : Type) : Type :=
| Returned (a : A)
| Raised (e : exc_class).
Arguments Raised {A} e.

(** Dictionaries keep insertion order; keys are unique. *)
Definition dict (V : Type) : Type := list (string * V).

Fixpoint dict_get {V} (d : dict V) (k : string) : option V :=
  match d with
  | [] => None
  | (k', v) :: d' => if String.eqb k k' then Some v else dict_get d' k
  end.

(** [d[k] = v]: an existing key keeps its position. *)
Fixpoint dict_set {V} (d : dict V) (k : string) (v : V) : dict V :=
  match d with
  | [] => [(k, v)]
  | (k', v') :: d' =>
      if String.eqb k k' then (k', v) :: d' else (k', v') :: dict_set d' k v
  end.

Fixpoint dict_remove {V} (d : dict V) (k : string) : dict V :=
  match d with
  | [] => []
  | (k', v') :: d' =>
      if String.eqb k k' then d' else (k', v') :: dict_remove d' k
  end.

Definition dict_keys {V} (d : dict V) : list string := map fst d.
Definition len {A} (l : list A) : nat := List.length l.

(** [all(iterable)] over truth values. *)
Definition all (bs : list bool) : bool := forallb (fun b => b) bs.

(** [range(start, stop, step)] for a positive [step]; empty for
    [step = 0], where Python raises. *)
Definition range (start stop step : nat) : list nat :=
  match step with
  | 0 => []
  | _ => map (fun k => start + k * step)
             (seq 0 ((stop - start + step - 1) / step))
  end.

(** [datetime]: the fields of the value [utcnow()] returns. *)
Record datetime : Set := {
  year : nat; month : nat; day : nat;
  hour : nat; minute : nat; second : nat; microsecond : nat
}.

End Py.
Import Py.

(** ** Observable events *)

Inductive log_level : Set := DEBUG | ERROR.

Inductive log_arg : Set :=
| ArgStr (s : string)
| ArgInt (n : nat).

Inductive event : Type :=
| Log (level : log_level) (msg : string) (args : list log_arg)
| LogException (msg : option string) (current : exc_class)
| ListenerCalled (listener_id : nat)
| RemoteServiceCalled (vin : string) (method : string)
| ServiceRegistered (domain : string) (service : string)
| ServiceRemoved (domain : string) (service : string)
| TrackUtcTimeChange (minutes : list nat) (sec : nat)
| ForwardEntrySetup (entry_id : string) (platform : string)
| ForwardEntryUnload (entry_id : string) (platform : string)
| LoadPlatform (platform : string).

(** ** State, trace and exception monad *)

Section Effects.

Variable S : Type.

Record ran (A : Type) : Type := Ran {
  final : S;
  events : list event;
  result : outcome A
}.

Definition Eff (A : Type) : Type := S -> ran A.

Definition ret {A} (a : A) : Eff A := fun s => Ran s [] (Returned a).

Definition raise {A} (e : exc_class) : Eff A := fun s => Ran s [] (Raised e).

Definition emit (ev : event) : Eff unit := fun s => Ran s [ev] (Returned tt).

Definition get : Eff S := fun s => Ran s [] (Returned s).

Definition put (s : S) : Eff unit := fun _ => Ran s [] (Returned tt).

Definition bind {A B} (m : Eff A) (k : A -> Eff B) : Eff B :=
  fun s =>
    match m s with
    | Ran s1 t1 (Returned a) =>
        match k a s1 with
        | Ran s2 t2 r => Ran s2 (t1 ++ t2) r
        end
    | Ran s1 t1 (Raised e) => Ran s1 t1 (Raised e)
    end.

(** [try: m except ...]: [handler e] is [Some h] when some [except]
    clause matches a raised [e], [None] when the exception passes. *)
Definition try_except {A} (m : Eff A)
    (handler : exc_class -> option (Eff A)) : Eff A :=
  fun s =>
    match m s with
    | Ran s1 t1 (Raised e) =>
        match handler e with
        | Some h =>
            match h s1 with
            | Ran s2 t2 r => Ran s2 (t1 ++ t2) r
            end
        | None => Ran s1 t1 (Raised e)
        end
    | r => r
    end.

(** [for x in xs: body(x)] *)
Fixpoint for_each {A} (xs : list A) (body : A -> Eff unit) : Eff unit :=
  match xs with
  | [] => ret tt
  | x :: xs' => bind (body x) (fun _ => for_each xs' body)
  end.

End Effects.

Arguments ret {S A} a.
Arguments raise {S A} e.
Arguments emit {S} ev.
Arguments get {S}.
Arguments put {S} s.
Arguments bind {S A B} m k.
Arguments try_except {S A} m handler.
Arguments for_each {S A} xs body.

Declare Scope eff_scope.
Delimit Scope eff_scope with eff.
Notation "x <- m ;; k" := (bind m (fun x => k))
  (at level 100, m at next level, right associativity) : eff_scope.
Notation "m ;;; k" := (bind m (fun _ => k))
  (at level 100, right associativity) : eff_scope.
Open Scope eff_scope.

(** ** Constants of [__init__.py] *)

Definition DOMAIN := "bmw_connected_drive".
Definition CONF_USERNAME := "username".
Definition CONF_PASSWORD := "password".
Definition CONF_REGION := "region".
Definition CONF_READ_ONLY := "read_only".
Definition ATTR_VIN := "vin".

Definition BMW_COMPONENTS : list string :=
  ["binary_sensor"; "device_tracker"; "lock"; "notify"; "sensor"].

Definition UPDATE_INTERVAL : nat := 5.

Definition SERVICE_UPDATE_STATE := "update_state".

Definition _SERVICE_MAP : dict string :=
  [("light_flash", "trigger_remote_light_flash");
   ("sound_horn", "trigger_remote_horn");
   ("activate_air_conditioning", "trigger_remote_air_conditioning")].

(** [list(_SERVICE_MAP) + [SERVICE_UPDATE_STATE]] *)
Definition COMMANDS : list string :=
  dict_keys _SERVICE_MAP ++ [SERVICE_UPDATE_STATE].

(** ** The vendor client library (bimmer_connected)

    The library is an external collaborator: its operations are taken as
    an interface.  A session owns the cached vehicle snapshot; the refresh
    is a transition of the session that returns or raises; [get_vehicle]
    answers [None] for a VIN the session does not hold. *)

Record ConnectedDriveVehicle : Set := { vin : string }.

Class VendorClient (session : Type) : Type := {
  get_region_from_name : string -> outcome string;
  ConnectedDriveAccount : string -> string -> string -> outcome session;
  update_vehicle_states : session -> session * outcome unit;
  get_vehicle : session -> string -> option ConnectedDriveVehicle
}.

(** ** [class BMWConnectedDriveAccount] *)

(** A registered callback: called with no argument, it returns or raises.
    Callbacks are taken not to call back into the account that notifies
    them. *)
Record listener : Set := {
  listener_id : nat;
  listener_outcome : outcome unit
}.

Record BMWConnectedDriveAccount (session : Type) : Type := {
  read_only : bool;
  account : session;
  name : string;
  _update_listeners : list listener
}.

Section Account.

Context {session : Type} {vendor : VendorClient session}.

Local Abbreviation Account := (BMWConnectedDriveAccount session).

(** [BMWConnectedDriveAccount.__init__] *)
Definition __init__ (username password region_str name_ : string)
    (read_only_ : bool) : outcome Account :=
  match get_region_from_name region_str with
  | Raised e => Raised e
  | Returned region =>
      match ConnectedDriveAccount username password region with
      | Raised e => Raised e
      | Returned s =>
          Returned {| read_only := read_only_; account := s;
                      name := name_; _update_listeners := [] |}
      end
  end.

(** The account with its vendor session in a new state. *)
Definition with_session (self : Account) (s : session) : Account :=
  {| read_only := read_only self; account := s; name := name self;
     _update_listeners := _update_listeners self |}.

(** [self.account.update_vehicle_states()] *)
Definition call_update_vehicle_states : Eff Account unit :=
  fun self =>
    let (s', r) := update_vehicle_states (account self) in
    Ran (with_session self s') [] r.

(** [listener()] *)
Definition call_listener (l : listener) : Eff Account unit :=
  emit (ListenerCalled (listener_id l)) ;;;
  match listener_outcome l with
  | Returned _ => ret tt
  | Raised e => raise e
  end.

(** The two records [update] writes to the log. *)
Definition update_debug (self : Account) : event :=
  Log DEBUG "Updating vehicle state for account %s, notifying %d listeners"
      [ArgStr (name self); ArgInt (len (_update_listeners self))].

Definition portal_error : event :=
  Log ERROR
      "Could not connect to the BMW Connected Drive portal. The vehicle state could not be updated."
      [].

(** [BMWConnectedDriveAccount.update] *)
Definition update : Eff Account unit :=
  self <- get ;;
  emit (update_debug self) ;;;
  try_except
    (call_update_vehicle_states ;;;
     self <- get ;;
     for_each (_update_listeners self) call_listener)
    (fun exception =>
       if issubclass exception OSError then
         Some (emit portal_error ;;; emit (LogException None exception))
       else None).

(** [BMWConnectedDriveAccount.add_update_listener] *)
Definition add_update_listener (self : Account) (l : listener) : Account :=
  {| read_only := read_only self; account := account self;
     name := name self;
     _update_listeners := _update_listeners self ++ [l] |}.

End Account.

(** ** The host framework (Home Assistant)

    Answers of the host that the code branches on: the success flag of a
    platform unload and the truth value of what [hass.services.remove]
    returns. *)

Class HostFramework : Type := {
  async_forward_entry_unload : string -> string -> bool;
  services_remove : string -> string -> bool
}.

(** Configuration of an account, as [ACCOUNT_SCHEMA] validates it. *)
Record account_config : Set := {
  username : string;
  password : string;
  region : string;
  read_only_flag : bool
}.

Record ConfigEntry : Set := {
  entry_id : string;
  entry_data : account_config
}.

(** A service call: [call.service] and [call.data[ATTR_VIN]]. *)
Record ServiceCall : Set := {
  service : string;
  call_vin : string
}.

(** The part of [hass] the integration reads and writes: [hass.data] at
    key [DOMAIN] ([None] when the key is absent), the unique ids of the
    entries already configured, and the clock [dt_util.utcnow()] reads. *)
Record HomeAssistant (session : Type) : Type := {
  data : option (dict (BMWConnectedDriveAccount session));
  configured_unique_ids : list string;
  utcnow : datetime
}.

(** An object met while iterating [hass.data[DOMAIN]]. *)
Inductive pyobj (session : Type) : Type :=
| PyStr (s : string)
| PyAccount (a : BMWConnectedDriveAccount session).
Arguments PyStr {session} s.

(** Result of a config-flow step. *)
Inductive flow_result : Type :=
| CreateEntry (title : string) (entry : account_config)
| ShowForm (step_id : string) (errors : dict string).

Section Integration.

Context {session : Type} {vendor : VendorClient session}
        {host : HostFramework}.

Local Abbreviation Account := (BMWConnectedDriveAccount session).
Local Abbreviation Hass := (HomeAssistant session).

Definition set_data (hass : Hass) (d : option (dict Account)) : Hass :=
  {| data := d; configured_unique_ids := configured_unique_ids hass;
     utcnow := utcnow hass |}.

(** A call that returns or raises without touching [hass]. *)
Definition lift_outcome {A} (o : outcome A) : Eff Hass A :=
  match o with
  | Returned a => ret a
  | Raised e => raise e
  end.

(** A method run on an account object held in a local variable: the
    object after the call is returned with the result. *)
Definition run_on {A} (acc : Account) (m : Eff Account A)
    : Eff Hass (Account * A) :=
  fun hass =>
    match m acc with
    | Ran acc' t (Returned a) => Ran hass t (Returned (acc', a))
    | Ran _ t (Raised e) => Ran hass t (Raised e)
    end.

(** [hass.data[DOMAIN]] *)
Definition data_domain : Eff Hass (dict Account) :=
  hass <- get ;;
  match data hass with
  | Some d => ret d
  | None => raise KeyError
  end.

(** [[f(x) for x in xs]], and [asyncio.gather] of jobs that return. *)
Fixpoint gather {A B} (xs : list A) (f : A -> Eff Hass B)
    : Eff Hass (list B) :=
  match xs with
  | [] => ret []
  | x :: xs' => y <- f x ;; ys <- gather xs' f ;; ret (y :: ys)
  end.

(** *** [execute_service], the closure of [setup_account] *)

(** [o.read_only]: [str] has no such attribute. *)
Definition getattr_read_only (o : pyobj session) : Eff Hass bool :=
  match o with
  | PyStr _ => raise AttributeError
  | PyAccount a => ret (read_only a)
  end.

(** [o.get_vehicle(vin)]: [str] has no attribute [get_vehicle], and
    neither has [BMWConnectedDriveAccount], whose attributes are
    [read_only], [account], [name], [_update_listeners], [update] and
    [add_update_listener]. *)
Definition call_get_vehicle (o : pyobj session) (vin_ : string)
    : Eff Hass (option ConnectedDriveVehicle) :=
  match o with
  | PyStr _ => raise AttributeError
  | PyAccount _ => raise AttributeError
  end.

(** [[account for account in xs if not account.read_only]] *)
Fixpoint not_read_only (xs : list (pyobj session))
    : Eff Hass (list (pyobj session)) :=
  match xs with
  | [] => ret []
  | x :: xs' =>
      ro <- getattr_read_only x ;;
      rest <- not_read_only xs' ;;
      ret (if negb ro then x :: rest else rest)
  end.

(** [for account in xs: vehicle = account.get_vehicle(vin)] *)
Fixpoint scan_accounts (xs : list (pyobj session)) (vin_ : string)
    (vehicle : option ConnectedDriveVehicle)
    : Eff Hass (option ConnectedDriveVehicle) :=
  match xs with
  | [] => ret vehicle
  | x :: xs' =>
      v <- call_get_vehicle x vin_ ;;
      scan_accounts xs' vin_ v
  end.

(** The statements after the loop. *)
Definition dispatch (call : ServiceCall)
    (vehicle : option ConnectedDriveVehicle) : Eff Hass unit :=
  match vehicle with
  | None =>
      emit (Log ERROR "Could not find a vehicle for VIN %s"
              [ArgStr (call_vin call)])
  | Some v =>
      match dict_get _SERVICE_MAP (service call) with
      | None => raise KeyError
      | Some function_name =>
          emit (RemoteServiceCalled (vin v) function_name)
      end
  end.

(** Iterating a dictionary yields its keys. *)
Definition iter_dict (d : dict Account) : list (pyobj session) :=
  map PyStr (dict_keys d).

Definition execute_service (call : ServiceCall) : Eff Hass unit :=
  let vin_ := call_vin call in
  d <- data_domain ;;
  accounts <- not_read_only (iter_dict d) ;;
  vehicle <- scan_accounts accounts vin_ None ;;
  dispatch call vehicle.

(** *** [setup_account] *)

(** The pattern handed to [track_utc_time_change]. *)
Definition time_pattern (now : datetime) : list nat * nat :=
  (range (minute now mod UPDATE_INTERVAL) 60 UPDATE_INTERVAL, second now).

Definition setup_account (cfg : account_config) (name_ : string)
    : Eff Hass Account :=
  emit (Log DEBUG "Adding new account %s" [ArgStr name_]) ;;;
  cd_account <- lift_outcome
    (__init__ (username cfg) (password cfg) (region cfg) name_
              (read_only_flag cfg)) ;;
  (if negb (read_only_flag cfg) then
     for_each (dict_keys _SERVICE_MAP)
              (fun service_ => emit (ServiceRegistered DOMAIN service_))
   else ret tt) ;;;
  hass <- get ;;
  let now := utcnow hass in
  emit (TrackUtcTimeChange (fst (time_pattern now))
                           (snd (time_pattern now))) ;;;
  ret cd_account.

(** The body of the [try] block shared by [async_setup_entry] and
    [validate_input]: set the account up, then refresh it once. *)
Definition setup_and_refresh (cfg : account_config) : Eff Hass Account :=
  acc <- setup_account cfg (username cfg) ;;
  r <- run_on acc update ;;
  ret (fst r).

(** The account object the probe builds for a configuration. *)
Definition built (cfg : account_config) : outcome Account :=
  __init__ (username cfg) (password cfg) (region cfg) (username cfg)
           (read_only_flag cfg).

(** *** [async_setup_entry] *)

(** [cd_account.update()] on the account stored under [k]. *)
Definition update_entry (k : string) : Eff Hass unit :=
  fun hass =>
    match data hass with
    | None => Ran hass [] (Raised KeyError)
    | Some d =>
        match dict_get d k with
        | None => Ran hass [] (Returned tt)
        | Some acc =>
            match update acc with
            | Ran acc' t r => Ran (set_data hass (Some (dict_set d k acc'))) t r
            end
        end
    end.

Definition _update_all : Eff Hass unit :=
  d <- data_domain ;;
  for_each (dict_keys d) update_entry.

(** [hass.data.setdefault(DOMAIN, {})] *)
Definition setdefault_domain (hass : Hass) : Hass :=
  match data hass with
  | None => set_data hass (Some [])
  | Some _ => hass
  end.

(** The statements of [async_setup_entry] after its [try] block. *)
Definition finish_setup (entry : ConfigEntry) (acc : Account)
    : Eff Hass bool :=
  (d <- data_domain ;;
   hass <- get ;;
   put (set_data hass (Some (dict_set d (entry_id entry) acc)))) ;;;
  emit (ServiceRegistered DOMAIN SERVICE_UPDATE_STATE) ;;;
  _update_all ;;;
  for_each BMW_COMPONENTS
    (fun platform =>
       if negb (String.eqb platform "notify")
       then emit (ForwardEntrySetup (entry_id entry) platform)
       else ret tt) ;;;
  emit (LoadPlatform "notify") ;;;
  ret true.

Definition async_setup_entry (entry : ConfigEntry) : Eff Hass bool :=
  (hass <- get ;; put (setdefault_domain hass)) ;;;
  acc <- try_except
    (setup_and_refresh (entry_data entry))
    (fun e => if issubclass e Exception
              then Some (raise ConfigEntryNotReady) else None) ;;
  finish_setup entry acc.

(** *** [async_unload_entry] *)

(** [hass.data[DOMAIN].pop(id)] *)
Definition pop_entry (id : string) : Eff Hass unit :=
  d <- data_domain ;;
  match dict_get d id with
  | None => raise KeyError
  | Some _ =>
      hass <- get ;;
      put (set_data hass (Some (dict_remove d id)))
  end.

Definition async_unload_entry (entry : ConfigEntry) : Eff Hass bool :=
  unloads <- gather BMW_COMPONENTS
    (fun component =>
       emit (ForwardEntryUnload (entry_id entry) component) ;;;
       ret (async_forward_entry_unload (entry_id entry) component)) ;;
  let unload_ok := all unloads in
  d <- data_domain ;;
  unload_services <-
    (if Nat.eqb (len d) 1 then
       let services := COMMANDS in
       removals <- gather services
         (fun service_ =>
            emit (ServiceRemoved DOMAIN service_) ;;;
            ret (services_remove DOMAIN service_)) ;;
       ret (all removals)
     else ret true) ;;
  (if all [unload_ok; unload_services] then pop_entry (entry_id entry)
   else ret tt) ;;;
  ret unload_ok.

(** *** [config_flow.py] *)

Definition validate_input (user_input : account_config) : Eff Hass string :=
  try_except
    (setup_and_refresh user_input ;;; ret tt)
    (fun e => if issubclass e Exception
              then Some (raise InvalidAuth) else None) ;;;
  ret (username user_input).

Definition async_step_user (user_input : option account_config)
    : Eff Hass flow_result :=
  match user_input with
  | None => ret (ShowForm "user" [])
  | Some ui =>
      let unique_id := (region ui ++ "-" ++ username ui)%string in
      hass <- get ;;
      (if existsb (String.eqb unique_id) (configured_unique_ids hass)
       then raise AbortFlow else ret tt) ;;;
      r <- try_except
        (title <- validate_input ui ;;
         ret (inl (CreateEntry title ui)))
        (fun e =>
           if issubclass e CannotConnect then
             Some (ret (inr [("base", "cannot_connect")]))
           else if issubclass e InvalidAuth || issubclass e OSError then
             Some (ret (inr [("base", "invalid_auth")]))
           else if issubclass e Exception then
             Some (emit (LogException (Some "Unexpected exception") e) ;;;
                   ret (inr [("base", "unknown")]))
           else None) ;;
      match r with
      | inl created => ret created
      | inr errors => ret (ShowForm "user" errors)
      end
  end.

Definition async_step_import (user_input : account_config)
    : Eff Hass flow_result :=
  async_step_user (Some user_input).

End Integration.

(** ** Projections of a trace *)

Definition listeners_invoked (t : list event) : list nat :=
  flat_map (fun ev => match ev with ListenerCalled i => [i] | _ => [] end) t.

Definition remote_calls (t : list event) : list (string * string) :=
  flat_map (fun ev => match ev with
                      | RemoteServiceCalled v m => [(v, m)]
                      | _ => []
                      end) t.

Definition errors_logged (t : list event) : list string :=
  flat_map (fun ev => match ev with Log ERROR m _ => [m] | _ => [] end) t.

Definition services_removed (t : list event) : list string :=
  flat_map (fun ev => match ev with ServiceRemoved _ s => [s] | _ => [] end) t.

Definition time_triggers (t : list event) : list (list nat * nat) :=
  flat_map (fun ev => match ev with
                      | TrackUtcTimeChange ms s => [(ms, s)]
                      | _ => []
                      end) t.

Definition returns (l : listener) : Prop := listener_outcome l = Returned tt.

(** The account stored under an entry id, if any. *)
Definition entry_account {session} (hass : HomeAssistant session)
    (id : string) : option (BMWConnectedDriveAccount session) :=
  match data hass with
  | Some d => dict_get d id
  | None => None
  end.

(** ** A scripted vendor and host, to run the model on concrete inputs *)

Module Scripted.

(** A session holds some vehicles; its refresh either counts one more
    successful refresh or raises [fault], leaving the session as it is. *)
Record scripted_session : Set := {
  held_vins : list string;
  fault : option exc_class;
  refreshes : nat
}.

Definition refresh (s : scripted_session)
    : scripted_session * outcome unit :=
  match fault s with
  | Some e => (s, Raised e)
  | None => ({| held_vins := held_vins s; fault := None;
                refreshes := S (refreshes s) |}, Returned tt)
  end.

Definition lookup (s : scripted_session) (v : string)
    : option ConnectedDriveVehicle :=
  if existsb (String.eqb v) (held_vins s) then Some {| vin := v |} else None.

(** The vendor whose login answers [connect]. *)
Definition scripted_vendor (connect : outcome scripted_session)
    : VendorClient scripted_session :=
  {| get_region_from_name := fun r => Returned r;
     ConnectedDriveAccount := fun _ _ _ => connect;
     update_vehicle_states := refresh;
     get_vehicle := lookup |}.

(** The host whose platform unloads answer [unload_ok] and whose
    service removals answer [remove_ok]. *)
Definition scripted_host (unload_ok remove_ok : bool) : HostFramework :=
  {| async_forward_entry_unload := fun _ _ => unload_ok;
     services_remove := fun _ _ => remove_ok |}.

Definition online (vins : list string) : scripted_session :=
  {| held_vins := vins; fault := None; refreshes := 0 |}.

Definition failing (e : exc_class) : scripted_session :=
  {| held_vins := ["WBA1234"]; fault := Some e; refreshes := 0 |}.

Definition cfg_a : account_config :=
  {| username := "a"; password := "b"; region := "North America";
     read_only_flag := false |}.

Definition entry_a : ConfigEntry :=
  {| entry_id := "entry-a"; entry_data := cfg_a |}.

Definition noon : datetime :=
  {| year := 2020; month := 6; day := 1; hour := 12; minute := 3;
     second := 7; microsecond := 0 |}.

Definition account_of (s : scripted_session) (ls : list listener)
    : BMWConnectedDriveAccount scripted_session :=
  {| read_only := false; account := s; name := "a";
     _update_listeners := ls |}.

Definition hass_with
    (d : option (dict (BMWConnectedDriveAccount scripted_session)))
    : HomeAssistant scripted_session :=
  {| data := d; configured_unique_ids := []; utcnow := noon |}.

Definition quiet (i : nat) : listener :=
  {| listener_id := i; listener_outcome := Returned tt |}.

Definition noisy (i : nat) (e : exc_class) : listener :=
  {| listener_id := i; listener_outcome := Raised e |}.

(** The vendor used for accounts that are already logged in. *)
Definition V : VendorClient scripted_session :=
  scripted_vendor (Returned (online ["WBA1234"])).

Definition acc_fresh : BMWConnectedDriveAccount scripted_session :=
  account_of (online ["WBA1234"]) [].

(** Listener 1 raises [ValueError]; listener 2 is registered after it. *)
Definition acc_noisy : BMWConnectedDriveAccount scripted_session :=
  account_of (online ["WBA1234"]) [noisy 1 ValueError; quiet 2].

(** Listener 2 raises [ConnectionError], a subclass of [OSError]. *)
Definition acc_io : BMWConnectedDriveAccount scripted_session :=
  account_of (online ["WBA1234"])
             [quiet 1; noisy 2 ConnectionError; quiet 3].

(** An account whose vendor refresh raises [ConnectionError]. *)
Definition acc_offline : BMWConnectedDriveAccount scripted_session :=
  account_of (failing ConnectionError) [quiet 1].

(** One configured read-write account, holding the vehicle WBA1234. *)
Definition hass_one : HomeAssistant scripted_session :=
  hass_with (Some [("entry-a", acc_fresh)]).

Definition light_flash_call (v : string) : ServiceCall :=
  {| service := "light_flash"; call_vin := v |}.


Definition hass_at (now : datetime) : HomeAssistant scripted_session :=
  {| data := Some []; configured_unique_ids := []; utcnow := now |}.

Definition cfg_c : account_config :=
  {| username := "c"; password := "d"; region := "Rest of World";
     read_only_flag := true |}.

(** Vendors by what goes wrong: the login, or every later refresh. *)
Definition V_login_fails (e : exc_class) : VendorClient scripted_session :=
  scripted_vendor (Raised e).

Definition V_refresh_fails (e : exc_class) : VendorClient scripted_session :=
  scripted_vendor (Returned (failing e)).

(** Five minutes after [noon]. *)
Definition five_past_noon : datetime :=
  {| year := 2020; month := 6; day := 1; hour := 12; minute := 8;
     second := 7; microsecond := 0 |}.

End Scripted.

(** ** Further projections and descriptions *)

Definition services_registered (t : list event) : list string :=
  flat_map (fun ev => match ev with
                      | ServiceRegistered _ s => [s]
                      | _ => []
                      end) t.

Definition platforms_forwarded (t : list event) : list string :=
  flat_map (fun ev => match ev with
                      | ForwardEntrySetup _ p => [p]
                      | _ => []
                      end) t.

Definition platform_unloads (t : list event) : list string :=
  flat_map (fun ev => match ev with
                      | ForwardEntryUnload _ p => [p]
                      | _ => []
                      end) t.

Definition platforms_loaded (t : list event) : list string :=
  flat_map (fun ev => match ev with LoadPlatform p => [p] | _ => [] end) t.

(** Does the callback return? *)
Definition returnsb (l : listener) : bool :=
  match listener_outcome l with
  | Returned _ => true
  | Raised _ => false
  end.

(** The listeners a fan-out reaches: those up to and including the first
    one that raises. *)
Fixpoint reached (ls : list listener) : list listener :=
  match ls with
  | [] => []
  | l :: ls' => l :: (if returnsb l then reached ls' else [])
  end.

(** An entry of the map after the refresh of its account. *)
Definition refreshed {session} {vendor : VendorClient session}
    (kv : string * BMWConnectedDriveAccount session)
    : string * BMWConnectedDriveAccount session :=
  (fst kv, final (update (snd kv))).

(** ** Maps of several accounts, to run the model on *)

Module Fleet.

Import Scripted.

Definition acc_a : BMWConnectedDriveAccount scripted_session :=
  account_of (online ["WBA1234"]) [quiet 1].

Definition acc_b : BMWConnectedDriveAccount scripted_session :=
  account_of (online ["WBB5678"]) [quiet 7].

(** An account whose vendor refresh raises [ValueError]. *)
Definition acc_bad : BMWConnectedDriveAccount scripted_session :=
  account_of (failing ValueError) [quiet 8].

Definition acc_timeout : BMWConnectedDriveAccount scripted_session :=
  account_of (failing TimeoutError) [quiet 2].

Definition two_ok : dict (BMWConnectedDriveAccount scripted_session) :=
  [("entry-a", acc_a); ("entry-b", acc_b)].

Definition with_bad : dict (BMWConnectedDriveAccount scripted_session) :=
  [("entry-a", acc_a); ("entry-x", acc_bad); ("entry-b", acc_b)].

Definition all_offline : dict (BMWConnectedDriveAccount scripted_session) :=
  [("entry-a", acc_offline); ("entry-b", acc_timeout)].

End Fleet.

(** The events an account can cause by itself: log records and calls of
    its listeners. *)
Definition account_event (ev : event) : Prop :=
  match ev with
  | Log _ _ _ | LogException _ _ | ListenerCalled _ => True
  | _ => False
  end.

(** A trace in which no platform is forwarded or loaded. *)
Definition no_platform_event (t : list event) : Prop :=
  platforms_forwarded t = [] /\ platforms_loaded t = [].

(** The platforms [async_setup_entry] forwards the entry to. *)
Definition FORWARDED : list string :=
  ["binary_sensor"; "device_tracker"; "lock"; "sensor"].

(** A vendor whose first refresh of a session succeeds and whose later
    ones raise [ValueError]. *)
Definition flaky_refresh (s : Scripted.scripted_session)
    : Scripted.scripted_session * outcome unit :=
  match Scripted.refreshes s with
  | 0 => ({| Scripted.held_vins := Scripted.held_vins s;
             Scripted.fault := Scripted.fault s;
             Scripted.refreshes := 1 |}, Returned tt)
  | S _ => (s, Raised ValueError)
  end.

Definition flaky_vendor : VendorClient Scripted.scripted_session :=
  {| get_region_from_name := fun r => Returned r;
     ConnectedDriveAccount :=
       fun _ _ _ => Returned (Scripted.online ["WBA1234"]);
     update_vehicle_states := flaky_refresh;
     get_vehicle := Scripted.lookup |}.

(** What [validate_input] makes of an exception of its [try] block. *)
Definition as_invalid_auth (e : exc_class) : exc_class :=
  if issubclass e Exception then InvalidAuth else e.

(** ** [async_setup]

    The flows [async_setup] asks the host to start are kept in the state:
    the list of the tasks created so far. *)

Record import_task : Set := {
  task_domain : string;
  task_source : string;
  task_data : account_config
}.

(** [hass.async_create_task(hass.config_entries.flow.async_init(...))] *)
Definition async_create_import_task (entry_config : account_config)
    : Eff (list import_task) unit :=
  tasks <- get ;;
  put (tasks ++ [{| task_domain := DOMAIN; task_source := "import";
                    task_data := entry_config |}]).

(** [config] is the validated configuration: for each domain, the
    accounts by name. *)
Definition async_setup (config : dict (dict account_config))
    : Eff (list import_task) bool :=
  match dict_get config DOMAIN with
  | Some accounts =>
      for_each (map snd accounts) async_create_import_task
  | None => ret tt
  end ;;;
  ret true.

(** A vendor whose refresh records progress in the session and then
    raises [ConnectionError]: a refresh that fails half-way. *)
Definition torn_refresh (s : Scripted.scripted_session)
    : Scripted.scripted_session * outcome unit :=
  ({| Scripted.held_vins := Scripted.held_vins s;
      Scripted.fault := Scripted.fault s;
      Scripted.refreshes := S (Scripted.refreshes s) |},
   Raised ConnectionError).

Definition torn_vendor : VendorClient Scripted.scripted_session :=
  {| get_region_from_name := fun r => Returned r;
     ConnectedDriveAccount :=
       fun _ _ _ => Returned (Scripted.online ["WBA1234"]);
     update_vehicle_states := torn_refresh;
     get_vehicle := Scripted.lookup |}.

(** * Properties *)

Unset Implicit Arguments.

(** ** Exception classes *)

Lemma issubclass_refl (c : exc_class) : issubclass c c = true.
Proof. destruct c; reflexivity. Qed.

Lemma OSError_is_Exception (e : exc_class) :
  issubclass e OSError = true -> issubclass e Exception = true.
Proof. destruct e; simpl; intro H; try reflexivity; discriminate H. Qed.

Example ConnectionError_is_OSError : issubclass ConnectionError OSError = true.
Proof. reflexivity. Qed.

Example InvalidAuth_is_not_OSError : issubclass InvalidAuth OSError = false.
Proof. reflexivity. Qed.

Example KeyboardInterrupt_is_not_Exception :
  issubclass KeyboardInterrupt Exception = false.
Proof. reflexivity. Qed.

(** ** Ranges and dictionaries *)

Example range_from_3 :
  range 3 60 5 = [3; 8; 13; 18; 23; 28; 33; 38; 43; 48; 53; 58].
Proof. reflexivity. Qed.

Example range_empty : range 7 7 5 = [].
Proof. reflexivity. Qed.

Lemma dict_get_set_same {V : Type} (d : dict V) (k : string) (v : V) :
  dict_get (dict_set d k v) k = Some v.
Proof.
  induction d as [|[k' v'] d IH]; simpl.
  - now rewrite String.eqb_refl.
  - destruct (String.eqb k k') eqn:Hk; simpl; rewrite Hk; [reflexivity | exact IH].
Qed.

Lemma dict_keys_set_present {V : Type} (d : dict V) (k : string) (v v0 : V) :
  dict_get d k = Some v0 -> dict_keys (dict_set d k v) = dict_keys d.
Proof.
  induction d as [|[k' v'] d IH]; simpl; [discriminate|].
  destruct (String.eqb k k') eqn:Hk; simpl; [reflexivity|].
  intro H. now rewrite (IH H).
Qed.

Lemma dict_get_set_other {V : Type} (d : dict V) (k k' : string) (v : V) :
  String.eqb k' k = false ->
  dict_get (dict_set d k v) k' = dict_get d k'.
Proof.
  intro Hne. induction d as [|[k0 v0] d IH]; simpl.
  - now rewrite Hne.
  - destruct (String.eqb k k0) eqn:Hk; simpl.
    + apply String.eqb_eq in Hk. subst k0. now rewrite Hne.
    + destruct (String.eqb k' k0); [reflexivity | exact IH].
Qed.

(** ** The monad *)

Lemma events_bind {S A B} (m : Eff S A) (k : A -> Eff S B) (s : S) :
  forall s1 t1 a,
    m s = Ran s1 t1 (Returned a) ->
    bind m k s = Ran (final (k a s1)) (t1 ++ events (k a s1))
                     (result (k a s1)).
Proof.
  intros s1 t1 a Hm. unfold bind. rewrite Hm.
  destruct (k a s1); reflexivity.
Qed.

Lemma bind_raised {S A B} (m : Eff S A) (k : A -> Eff S B) (s : S) :
  forall s1 t1 e,
    m s = Ran s1 t1 (Raised e) ->
    bind m k s = Ran s1 t1 (Raised e).
Proof. intros s1 t1 e Hm. unfold bind. rewrite Hm. reflexivity. Qed.

Lemma ran_eta {S A} (r : ran S A) :
  r = Ran (final r) (events r) (result r).
Proof. destruct r; reflexivity. Qed.

Lemma try_except_returned {S A} (m : Eff S A)
    (handler : exc_class -> option (Eff S A)) (s : S) :
  forall s1 t1 a,
    m s = Ran s1 t1 (Returned a) ->
    try_except m handler s = Ran s1 t1 (Returned a).
Proof. intros s1 t1 a Hm. unfold try_except. now rewrite Hm. Qed.

Lemma try_except_handled {S A} (m : Eff S A)
    (handler : exc_class -> option (Eff S A)) (s : S) :
  forall s1 t1 e h,
    m s = Ran s1 t1 (Raised e) ->
    handler e = Some h ->
    try_except m handler s =
    Ran (final (h s1)) (t1 ++ events (h s1)) (result (h s1)).
Proof.
  intros s1 t1 e h Hm Hh. unfold try_except. rewrite Hm, Hh.
  destruct (h s1); reflexivity.
Qed.

Lemma try_except_passed {S A} (m : Eff S A)
    (handler : exc_class -> option (Eff S A)) (s : S) :
  forall s1 t1 e,
    m s = Ran s1 t1 (Raised e) ->
    handler e = None ->
    try_except m handler s = Ran s1 t1 (Raised e).
Proof. intros s1 t1 e Hm Hh. unfold try_except. now rewrite Hm, Hh. Qed.

(** A property of the state that every step keeps is kept by a
    sequence, whether it returns or raises. *)
Lemma bind_keeps {S A B} (P : S -> Prop) (m : Eff S A) (k : A -> Eff S B)
    (s : S) :
  P (final (m s)) ->
  (forall a s1, P s1 -> P (final (k a s1))) ->
  P (final (bind m k s)).
Proof.
  intros Hm Hk. unfold bind.
  destruct (m s) as [s1 t1 [a|e]]; cbn [final] in *.
  - specialize (Hk a s1 Hm). destruct (k a s1); exact Hk.
  - exact Hm.
Qed.

Lemma for_each_keeps {S A} (P : S -> Prop) (xs : list A)
    (body : A -> Eff S unit) :
  (forall x s, P s -> P (final (body x s))) ->
  forall s, P s -> P (final (for_each xs body s)).
Proof.
  intro Hbody. induction xs as [|x xs IH]; intros s Hs; [exact Hs|].
  cbn [for_each]. apply bind_keeps; [now apply Hbody|].
  intros _ s1 Hs1. now apply IH.
Qed.

Lemma listeners_invoked_app (t u : list event) :
  listeners_invoked (t ++ u) = listeners_invoked t ++ listeners_invoked u.
Proof. unfold listeners_invoked. apply flat_map_app. Qed.

Lemma listeners_invoked_calls (ids : list nat) :
  listeners_invoked (map ListenerCalled ids) = ids.
Proof.
  induction ids as [|i ids IH]; simpl; [reflexivity|].
  f_equal. exact IH.
Qed.


(** ** The account wrapper *)

Section AccountProperties.

Context {session : Type} {vendor : VendorClient session}.

Local Abbreviation Account := (BMWConnectedDriveAccount session).

Lemma call_listener_returns (l : listener) (self : Account) :
  returns l ->
  call_listener l self = Ran self [ListenerCalled (listener_id l)] (Returned tt).
Proof.
  unfold returns, call_listener, bind, emit. intros ->. reflexivity.
Qed.

Lemma call_listener_raises (l : listener) (e : exc_class) (self : Account) :
  listener_outcome l = Raised e ->
  call_listener l self = Ran self [ListenerCalled (listener_id l)] (Raised e).
Proof.
  unfold call_listener, bind, emit. intros ->. reflexivity.
Qed.

(** The fan-out over listeners that all return. *)
Lemma notify_all_return (ls : list listener) (self : Account) :
  Forall returns ls ->
  for_each ls call_listener self =
  Ran self (map ListenerCalled (map listener_id ls)) (Returned tt).
Proof.
  induction 1 as [|l ls Hl _ IH]; simpl; [reflexivity|].
  unfold bind. rewrite (call_listener_returns l self Hl), IH. reflexivity.
Qed.

(** The fan-out stops at the first listener that raises. *)
Lemma notify_first_raise (pre post : list listener) (l : listener)
    (e : exc_class) (self : Account) :
  Forall returns pre ->
  listener_outcome l = Raised e ->
  for_each (pre ++ l :: post) call_listener self =
  Ran self (map ListenerCalled (map listener_id (pre ++ [l]))) (Raised e).
Proof.
  intros Hpre Hl.
  induction Hpre as [|p pre Hp _ IH]; simpl.
  - unfold bind. rewrite (call_listener_raises l e self Hl). reflexivity.
  - unfold bind. rewrite (call_listener_returns p self Hp), IH. reflexivity.
Qed.

(** [update] when the vendor refresh raises. *)
Lemma update_refresh_raised (self : Account) (s' : session) (e : exc_class) :
  update_vehicle_states (account self) = (s', Raised e) ->
  update self =
  if issubclass e OSError
  then Ran (with_session self s')
           [update_debug self; portal_error; LogException None e]
           (Returned tt)
  else Ran (with_session self s') [update_debug self] (Raised e).
Proof.
  intro Hv.
  unfold update, bind, try_except, get, emit, call_update_vehicle_states.
  simpl. rewrite Hv. simpl.
  destruct (issubclass e OSError); reflexivity.
Qed.

(** [update] when the vendor refresh returns: the fan-out decides. *)
Lemma update_refresh_returned (self : Account) (s' : session) :
  update_vehicle_states (account self) = (s', Returned tt) ->
  update self =
  match for_each (_update_listeners self) call_listener
                 (with_session self s') with
  | Ran s2 t (Returned a) => Ran s2 (update_debug self :: t) (Returned a)
  | Ran s2 t (Raised e) =>
      if issubclass e OSError
      then Ran s2 (update_debug self :: t
                     ++ [portal_error; LogException None e]) (Returned tt)
      else Ran s2 (update_debug self :: t) (Raised e)
  end.
Proof.
  intro Hv.
  unfold update, bind, try_except, get, emit, call_update_vehicle_states.
  simpl. rewrite Hv. simpl.
  destruct (for_each (_update_listeners self) call_listener
                     (with_session self s')) as [s2 t [a|e]]; simpl.
  - reflexivity.
  - destruct (issubclass e OSError); reflexivity.
Qed.

Lemma listeners_of_fold (ls : list listener) (acc0 : Account) :
  _update_listeners (fold_left add_update_listener ls acc0) =
  _update_listeners acc0 ++ ls.
Proof.
  revert acc0. induction ls as [|l ls IH]; intro acc0; simpl.
  - now rewrite app_nil_r.
  - rewrite IH. simpl. now rewrite <- app_assoc.
Qed.

Lemma account_of_fold (ls : list listener) (acc0 : Account) :
  account (fold_left add_update_listener ls acc0) = account acc0.
Proof.
  revert acc0. induction ls as [|l ls IH]; intro acc0; simpl; [reflexivity|].
  now rewrite IH.
Qed.

(** C3 (amended): when the vendor refresh succeeds and no listener raises,
    [update] returns normally after invoking every registered listener
    exactly once per registration, in the order of the
    [add_update_listener] calls. *)
Theorem update_notifies_in_registration_order
    (acc0 : Account) (ls : list listener) (s' : session) :
  _update_listeners acc0 = [] ->
  update_vehicle_states (account acc0) = (s', Returned tt) ->
  Forall returns ls ->
  let r := update (fold_left add_update_listener ls acc0) in
  result r = Returned tt /\
  listeners_invoked (events r) = map listener_id ls.
Proof.
  intros Hnone Hv Hret. cbv zeta.
  set (self := fold_left add_update_listener ls acc0).
  assert (Hls : _update_listeners self = ls).
  { unfold self. now rewrite listeners_of_fold, Hnone. }
  assert (Hacc : update_vehicle_states (account self) = (s', Returned tt)).
  { unfold self. now rewrite account_of_fold. }
  rewrite (update_refresh_returned self s' Hacc), Hls.
  rewrite (notify_all_return ls (with_session self s') Hret). simpl.
  split; [reflexivity|].
  apply listeners_invoked_calls.
Qed.

(** C4 (amended): when the refresh succeeds and a listener raises [e]
    after the listeners before it returned, the listeners after it are not
    invoked; [e] propagates to the caller of [update] unless it is an
    [OSError], which [update] catches, logs and swallows. *)
Theorem update_listener_exception
    (self : Account) (s' : session) (pre post : list listener)
    (l : listener) (e : exc_class) :
  update_vehicle_states (account self) = (s', Returned tt) ->
  _update_listeners self = pre ++ l :: post ->
  Forall returns pre ->
  listener_outcome l = Raised e ->
  let r := update self in
  listeners_invoked (events r) = map listener_id (pre ++ [l]) /\
  result r = (if issubclass e OSError then Returned tt else Raised e) /\
  errors_logged (events r) =
    (if issubclass e OSError
     then ["Could not connect to the BMW Connected Drive portal. The vehicle state could not be updated."]
     else []).
Proof.
  intros Hv Hls Hpre Hl. cbv zeta.
  rewrite (update_refresh_returned self s' Hv), Hls.
  rewrite (notify_first_raise pre post l e (with_session self s') Hpre Hl).
  assert (Hcalls : forall ids,
             errors_logged (map ListenerCalled ids) = []).
  { induction ids as [|i ids IH]; simpl; [reflexivity | exact IH]. }
  destruct (issubclass e OSError); simpl.
  - split; [|split].
    + rewrite listeners_invoked_app, listeners_invoked_calls. simpl.
      now rewrite app_nil_r.
    + reflexivity.
    + unfold errors_logged. rewrite flat_map_app.
      fold (errors_logged (map ListenerCalled (map listener_id (pre ++ [l])))).
      now rewrite Hcalls.
  - split; [|split].
    + apply listeners_invoked_calls.
    + reflexivity.
    + apply Hcalls.
Qed.

(** C5 (amended): when the vendor refresh raises an I/O error, [update]
    logs the error and returns normally; no listener is invoked, nothing
    propagates, and [update] itself writes nothing to the account: its
    fields are those it had, the vendor session (which owns the cached
    snapshot) being exactly as the failed vendor call left it, hence
    unchanged when that call left it unchanged. *)
Theorem update_transport_error_swallowed
    (self : Account) (s' : session) (e : exc_class) :
  update_vehicle_states (account self) = (s', Raised e) ->
  issubclass e OSError = true ->
  let r := update self in
  result r = Returned tt /\
  listeners_invoked (events r) = [] /\
  events r = [update_debug self; portal_error; LogException None e] /\
  final r = with_session self s' /\
  (s' = account self -> final r = self).
Proof.
  intros Hv He. cbv zeta.
  rewrite (update_refresh_raised self s' e Hv), He. simpl.
  repeat split; try reflexivity.
  intros ->. destruct self; reflexivity.
Qed.

End AccountProperties.

(** ** The service dispatcher *)

Section DispatcherProperties.

Context {session : Type} {vendor : VendorClient session}.

Local Abbreviation Hass := (HomeAssistant session).

(** The comprehension fails on the first key: a [str] has no
    [read_only]. *)
Lemma not_read_only_keys (k : string) (ks : list string) (hass : Hass) :
  not_read_only (map PyStr (k :: ks)) hass = Ran hass [] (Raised AttributeError).
Proof. reflexivity. Qed.

(** The loop body fails on whatever object it is given: neither a key
    nor an account wrapper has [get_vehicle]. *)
Lemma scan_accounts_nonempty (x : pyobj session) (xs : list (pyobj session))
    (v : string) (vehicle : option ConnectedDriveVehicle) (hass : Hass) :
  scan_accounts (x :: xs) v vehicle hass = Ran hass [] (Raised AttributeError).
Proof. destruct x; reflexivity. Qed.

Lemma scan_accounts_result (xs : list (pyobj session)) (v : string)
    (hass : Hass) :
  scan_accounts xs v None hass =
  match xs with
  | [] => Ran hass [] (Returned None)
  | _ :: _ => Ran hass [] (Raised AttributeError)
  end.
Proof. destruct xs as [|x xs]; [reflexivity | apply scan_accounts_nonempty]. Qed.

(** With at least one configured account the dispatcher raises
    [AttributeError] before it logs or invokes anything. *)
Lemma execute_service_configured (call : ServiceCall) (hass : Hass)
    (d : dict (BMWConnectedDriveAccount session)) :
  data hass = Some d -> d <> [] ->
  execute_service call hass = Ran hass [] (Raised AttributeError).
Proof.
  intros Hd Hne. destruct d as [|[k a] d]; [congruence|].
  unfold execute_service, data_domain, bind, get. simpl. rewrite Hd.
  reflexivity.
Qed.

(** With no configured account the dispatcher logs the error and
    returns. *)
Lemma execute_service_no_account (call : ServiceCall) (hass : Hass) :
  data hass = Some [] ->
  execute_service call hass =
  Ran hass [Log ERROR "Could not find a vehicle for VIN %s"
                [ArgStr (call_vin call)]] (Returned tt).
Proof.
  intro Hd. unfold execute_service, data_domain, bind, get. simpl.
  rewrite Hd. reflexivity.
Qed.

(** The dispatcher never reaches a remote-control method. *)
Lemma execute_service_no_remote_call (call : ServiceCall) (hass : Hass) :
  remote_calls (events (execute_service call hass)) = [].
Proof.
  destruct (data hass) as [d|] eqn:Hd.
  - destruct d as [|ka d].
    + now rewrite (execute_service_no_account call hass Hd).
    + rewrite (execute_service_configured call hass (ka :: d) Hd);
        [reflexivity | discriminate].
  - unfold execute_service, data_domain, bind, get. simpl. rewrite Hd.
    reflexivity.
Qed.

End DispatcherProperties.

(** C1 (code defect): one read-write account is configured and holds the
    vehicle WBA1234; dispatching [light_flash] for that VIN raises
    [AttributeError] and invokes no remote-control method, because the loop
    of [execute_service] iterates the keys of [hass.data[DOMAIN]]. *)
Theorem execute_service_known_vin_raises :
  entry_account Scripted.hass_one "entry-a" = Some Scripted.acc_fresh /\
  read_only Scripted.acc_fresh = false /\
  get_vehicle (VendorClient := Scripted.V) (account Scripted.acc_fresh)
              "WBA1234" = Some {| vin := "WBA1234" |} /\
  dict_get _SERVICE_MAP "light_flash" = Some "trigger_remote_light_flash" /\
  execute_service (Scripted.light_flash_call "WBA1234") Scripted.hass_one
  = Ran Scripted.hass_one [] (Raised AttributeError) /\
  remote_calls
    (events (execute_service (Scripted.light_flash_call "WBA1234")
                             Scripted.hass_one)) = [].
Proof. repeat split. Qed.

(** C2 (code defect): with the same configured account, dispatching a
    command for a VIN that no account holds raises [AttributeError] to the
    caller and logs nothing. *)
Theorem execute_service_unknown_vin_raises :
  get_vehicle (VendorClient := Scripted.V) (account Scripted.acc_fresh)
              "WBA9999" = None /\
  result (execute_service (Scripted.light_flash_call "WBA9999")
                          Scripted.hass_one) = Raised AttributeError /\
  errors_logged
    (events (execute_service (Scripted.light_flash_call "WBA9999")
                             Scripted.hass_one)) = [] /\
  remote_calls
    (events (execute_service (Scripted.light_flash_call "WBA9999")
                             Scripted.hass_one)) = [].
Proof. repeat split. Qed.

(** ** The update scheduler *)

Section SchedulerProperties.

Context {session : Type} {vendor : VendorClient session}.

Local Abbreviation Hass := (HomeAssistant session).

Lemma setup_account_raised (cfg : account_config) (n : string) (hass : Hass)
    (e : exc_class) :
  __init__ (username cfg) (password cfg) (region cfg) n (read_only_flag cfg)
    = Raised e ->
  setup_account cfg n hass =
  Ran hass [Log DEBUG "Adding new account %s" [ArgStr n]] (Raised e).
Proof.
  intro Hi. unfold setup_account, bind, emit, lift_outcome. simpl.
  rewrite Hi. reflexivity.
Qed.

Lemma setup_account_returned (cfg : account_config) (n : string)
    (hass : Hass) (acc : BMWConnectedDriveAccount session) :
  __init__ (username cfg) (password cfg) (region cfg) n (read_only_flag cfg)
    = Returned acc ->
  setup_account cfg n hass =
  Ran hass
      (Log DEBUG "Adding new account %s" [ArgStr n]
       :: (if read_only_flag cfg then []
           else map (ServiceRegistered DOMAIN) (dict_keys _SERVICE_MAP))
       ++ [TrackUtcTimeChange (fst (time_pattern (utcnow hass)))
                              (snd (time_pattern (utcnow hass)))])
      (Returned acc).
Proof.
  intro Hi. unfold setup_account, bind, emit, lift_outcome, get. simpl.
  rewrite Hi. simpl. destruct (read_only_flag cfg); reflexivity.
Qed.

Lemma setup_account_final (cfg : account_config) (n : string) (hass : Hass) :
  final (setup_account cfg n hass) = hass.
Proof.
  destruct (__init__ (username cfg) (password cfg) (region cfg) n
                     (read_only_flag cfg)) as [acc|e] eqn:Hi.
  - now rewrite (setup_account_returned cfg n hass acc Hi).
  - now rewrite (setup_account_raised cfg n hass e Hi).
Qed.

Lemma setup_account_result (cfg : account_config) (n : string) (hass : Hass) :
  result (setup_account cfg n hass) =
  __init__ (username cfg) (password cfg) (region cfg) n (read_only_flag cfg).
Proof.
  destruct (__init__ (username cfg) (password cfg) (region cfg) n
                     (read_only_flag cfg)) as [acc|e] eqn:Hi.
  - now rewrite (setup_account_returned cfg n hass acc Hi).
  - now rewrite (setup_account_raised cfg n hass e Hi).
Qed.

(** A successful [setup_account] registers one alarm, with the pattern
    computed from the clock. *)
Lemma setup_account_trigger (cfg : account_config) (n : string) (hass : Hass)
    (acc : BMWConnectedDriveAccount session) :
  result (setup_account cfg n hass) = Returned acc ->
  time_triggers (events (setup_account cfg n hass))
  = [time_pattern (utcnow hass)].
Proof.
  rewrite setup_account_result. intro Hi.
  rewrite (setup_account_returned cfg n hass acc Hi). simpl.
  destruct (read_only_flag cfg); reflexivity.
Qed.

End SchedulerProperties.

(** The minutes of a pattern start at the offset. *)
Lemma range_offset_head (x : nat) :
  x < UPDATE_INTERVAL ->
  hd_error (range x 60 UPDATE_INTERVAL) = Some x.
Proof.
  unfold UPDATE_INTERVAL. intro Hx.
  do 5 (destruct x as [|x]; [reflexivity|]). lia.
Qed.

(** Two clock readings give the same pattern exactly when their minutes
    agree modulo the interval and their seconds agree. *)
Lemma time_pattern_eq_iff (a b : datetime) :
  time_pattern a = time_pattern b <->
  minute a mod UPDATE_INTERVAL = minute b mod UPDATE_INTERVAL /\
  second a = second b.
Proof.
  unfold time_pattern. split.
  - intro H.
    pose proof (f_equal fst H) as Hr. pose proof (f_equal snd H) as Hs.
    cbn [fst snd] in Hr, Hs. split; [|exact Hs].
    assert (Ha : minute a mod UPDATE_INTERVAL < UPDATE_INTERVAL)
      by (apply Nat.mod_upper_bound; discriminate).
    assert (Hb : minute b mod UPDATE_INTERVAL < UPDATE_INTERVAL)
      by (apply Nat.mod_upper_bound; discriminate).
    apply range_offset_head in Ha. apply range_offset_head in Hb.
    rewrite Hr in Ha. congruence.
  - intros [Hm Hs]. now rewrite Hm, Hs.
Qed.

(** Setups at 12:03:07 and 12:08:07 are handed the same pattern although
    their minute values differ. *)
Example minutes_3_and_8_collide :
  minute Scripted.noon <> minute Scripted.five_past_noon /\
  time_pattern Scripted.noon = time_pattern Scripted.five_past_noon.
Proof. split; [discriminate | reflexivity]. Qed.

(** The alarm of an account fires in the minutes congruent to the minute
    of its setup. *)
Lemma time_pattern_minutes (now : datetime) (m : nat) :
  In m (fst (time_pattern now)) <->
  m < 60 /\ m mod UPDATE_INTERVAL = minute now mod UPDATE_INTERVAL.
Proof.
  unfold time_pattern, UPDATE_INTERVAL. cbn [fst].
  assert (Hx : minute now mod 5 < 5) by (apply Nat.mod_upper_bound; lia).
  set (x := minute now mod 5) in *. clearbody x.
  unfold range.
  assert (Hn : (60 - x + 5 - 1) / 5 = 12).
  { do 5 (destruct x as [|x]; [reflexivity|]). lia. }
  rewrite Hn, in_map_iff. split.
  - intros [k [Hk Hin]]. apply in_seq in Hin. subst m. split; [lia|].
    rewrite Nat.Div0.mod_add. now apply Nat.mod_small.
  - intros [Hm Hmod]. exists (m / 5). split.
    + pose proof (Nat.div_mod_eq m 5) as Hdm. lia.
    + apply in_seq. split; [lia|].
      apply Nat.Div0.div_lt_upper_bound. lia.
Qed.




(** ** Entry unload *)

Section UnloadProperties.

Context {session : Type} {host : HostFramework}.

Local Abbreviation Hass := (HomeAssistant session).

Lemma gather_answers {A : Type} (xs : list A) (ev : A -> event)
    (answer : A -> bool) (hass : Hass) :
  gather xs (fun x => emit (ev x) ;;; ret (answer x)) hass =
  Ran hass (map ev xs) (Returned (map answer xs)).
Proof.
  set (f := fun x => emit (ev x) ;;; ret (answer x)).
  assert (Hf : forall x s, f x s = Ran s [ev x] (Returned (answer x)))
    by reflexivity.
  clearbody f. revert hass.
  induction xs as [|x xs IH]; intro hass; [reflexivity|].
  cbn [gather map]. unfold bind. rewrite Hf, IH. cbn [ret app].
  now rewrite app_nil_r.
Qed.

Lemma all_forallb {A : Type} (f : A -> bool) (xs : list A) :
  all (map f xs) = forallb f xs.
Proof.
  unfold all. induction xs as [|x xs IH]; simpl; [reflexivity|].
  now rewrite IH.
Qed.

Lemma data_domain_eq (hass : Hass)
    (d : dict (BMWConnectedDriveAccount session)) :
  data hass = Some d -> data_domain hass = Ran hass [] (Returned d).
Proof. intro Hd. unfold data_domain, bind, get. rewrite Hd. reflexivity. Qed.

Lemma pop_entry_eq (id : string) (hass : Hass)
    (d : dict (BMWConnectedDriveAccount session))
    (acc : BMWConnectedDriveAccount session) :
  data hass = Some d ->
  dict_get d id = Some acc ->
  pop_entry id hass =
  Ran (set_data hass (Some (dict_remove d id))) [] (Returned tt).
Proof.
  intros Hd Hacc. unfold pop_entry.
  rewrite (events_bind _ _ _ _ _ _ (data_domain_eq hass d Hd)).
  rewrite Hacc. reflexivity.
Qed.

(** What an unload of a loaded entry does, step by step. *)
Lemma async_unload_entry_eq (entry : ConfigEntry) (hass : Hass)
    (d : dict (BMWConnectedDriveAccount session))
    (acc : BMWConnectedDriveAccount session) :
  data hass = Some d ->
  dict_get d (entry_id entry) = Some acc ->
  async_unload_entry entry hass =
  let unload_ok :=
    forallb (async_forward_entry_unload (entry_id entry)) BMW_COMPONENTS in
  let last := Nat.eqb (len d) 1 in
  let unload_services :=
    if last then forallb (services_remove DOMAIN) COMMANDS else true in
  Ran (if unload_ok && unload_services
       then set_data hass (Some (dict_remove d (entry_id entry)))
       else hass)
      (map (ForwardEntryUnload (entry_id entry)) BMW_COMPONENTS
       ++ (if last then map (ServiceRemoved DOMAIN) COMMANDS else []))
      (Returned unload_ok).
Proof.
  intros Hd Hacc. cbv zeta.
  unfold async_unload_entry.
  rewrite (events_bind _ _ _ _ _ _ (gather_answers _ _ _ hass)).
  rewrite all_forallb.
  set (unload_ok := forallb _ BMW_COMPONENTS).
  rewrite (events_bind _ _ _ _ _ _ (data_domain_eq hass d Hd)).
  assert (Htail : forall b : bool,
             ((if b then pop_entry (entry_id entry) else ret tt) ;;;
              ret unload_ok) hass =
             Ran (if b then set_data hass (Some (dict_remove d (entry_id entry)))
                  else hass) [] (Returned unload_ok)).
  { intros [|].
    - rewrite (events_bind _ _ _ _ _ _
                 (pop_entry_eq (entry_id entry) hass d acc Hd Hacc)).
      reflexivity.
    - reflexivity. }
  destruct (Nat.eqb (len d) 1).
  - cbv zeta.
    assert (Hrm : (removals <- gather COMMANDS
                     (fun service_ =>
                        emit (ServiceRemoved DOMAIN service_) ;;;
                        ret (services_remove DOMAIN service_)) ;;
                   ret (all removals)) hass =
                  Ran hass (map (ServiceRemoved DOMAIN) COMMANDS)
                      (Returned (forallb (services_remove DOMAIN) COMMANDS))).
    { rewrite (events_bind _ _ _ _ _ _ (gather_answers _ _ _ hass)).
      rewrite all_forallb. cbn [ret final events result].
      now rewrite app_nil_r. }
    rewrite (events_bind _ _ _ _ _ _ Hrm).
    unfold all. cbn [forallb]. rewrite andb_true_r.
    rewrite Htail. cbn [final events result app].
    now rewrite !app_nil_r.
  - assert (Hno : ret true hass = Ran hass [] (Returned true)) by reflexivity.
    rewrite (events_bind _ _ _ _ _ _ Hno).
    unfold all. cbn [forallb]. rewrite !andb_true_r.
    rewrite Htail. cbn [final events result app].
    now rewrite !app_nil_r.
Qed.

(** A map that holds the entry has length one exactly when the entry is
    the only one left. *)
Lemma last_account_iff (id : string)
    (d : dict (BMWConnectedDriveAccount session))
    (acc : BMWConnectedDriveAccount session) :
  dict_get d id = Some acc ->
  (Nat.eqb (len d) 1 = true <-> d = [(id, acc)]).
Proof.
  intro Hacc. split.
  - intro Hlen. apply Nat.eqb_eq in Hlen.
    destruct d as [|[k v] [|kv d]]; try discriminate Hlen.
    simpl in Hacc. destruct (String.eqb id k) eqn:Hk; [|discriminate].
    apply String.eqb_eq in Hk. congruence.
  - intros ->. reflexivity.
Qed.

(** C9 (amended): on the unload of a loaded entry, the global commands
    are deregistered exactly when the unloaded account is the last one in
    the map; the account is removed from the map exactly when every
    platform unload and, when applicable, every command deregistration
    succeeded; the value returned is the conjunction of the platform
    unload results alone. *)
Theorem async_unload_entry_teardown (entry : ConfigEntry) (hass : Hass)
    (d : dict (BMWConnectedDriveAccount session))
    (acc : BMWConnectedDriveAccount session) :
  data hass = Some d ->
  dict_get d (entry_id entry) = Some acc ->
  let r := async_unload_entry entry hass in
  let platforms_ok :=
    forallb (async_forward_entry_unload (entry_id entry)) BMW_COMPONENTS in
  let commands_ok := forallb (services_remove DOMAIN) COMMANDS in
  let last := Nat.eqb (len d) 1 in
  (last = true <-> d = [(entry_id entry, acc)]) /\
  services_removed (events r) = (if last then COMMANDS else []) /\
  final r =
    (if platforms_ok && (if last then commands_ok else true)
     then set_data hass (Some (dict_remove d (entry_id entry)))
     else hass) /\
  result r = Returned platforms_ok.
Proof.
  intros Hd Hacc. cbv zeta.
  rewrite (async_unload_entry_eq entry hass d acc Hd Hacc). cbv zeta.
  split; [exact (last_account_iff (entry_id entry) d acc Hacc)|].
  split; [|split; reflexivity].
  cbn [events]. destruct (Nat.eqb (len d) 1); reflexivity.
Qed.

End UnloadProperties.

(** ** Entry setup *)

Section SetupProperties.

Context {session : Type} {vendor : VendorClient session}.

Local Abbreviation Hass := (HomeAssistant session).
Local Abbreviation Account := (BMWConnectedDriveAccount session).

Lemma entry_account_setdefault (hass : Hass) (id : string) :
  entry_account (setdefault_domain hass) id = entry_account hass id.
Proof.
  unfold entry_account, setdefault_domain.
  destruct (data hass) as [d|] eqn:Hd; simpl; [now rewrite Hd | reflexivity].
Qed.

Lemma run_on_update (acc : Account) (hass : Hass) :
  run_on acc update hass =
  Ran hass (events (update acc))
      match result (update acc) with
      | Returned a => Returned (final (update acc), a)
      | Raised e => Raised e
      end.
Proof.
  unfold run_on. destruct (update acc) as [acc' t [a|e]]; reflexivity.
Qed.

(** The probe never writes to [hass]. *)
Lemma setup_and_refresh_final (cfg : account_config) (hass : Hass) :
  final (setup_and_refresh cfg hass) = hass.
Proof.
  unfold setup_and_refresh.
  destruct (built cfg) as [acc|e] eqn:Hi; unfold built in Hi.
  - rewrite (events_bind _ _ _ _ _ _
               (setup_account_returned cfg (username cfg) hass acc Hi)).
    cbn [final]. unfold bind. rewrite run_on_update.
    destruct (result (update acc)); reflexivity.
  - rewrite (bind_raised _ _ _ _ _ _
               (setup_account_raised cfg (username cfg) hass e Hi)).
    reflexivity.
Qed.

(** The probe raises when the construction raises or when [update]
    raises, and returns the refreshed account otherwise. *)
Lemma setup_and_refresh_result (cfg : account_config) (hass : Hass) :
  result (setup_and_refresh cfg hass) =
  match built cfg with
  | Raised e => Raised e
  | Returned acc =>
      match result (update acc) with
      | Returned _ => Returned (final (update acc))
      | Raised e => Raised e
      end
  end.
Proof.
  unfold setup_and_refresh.
  destruct (built cfg) as [acc|e] eqn:Hi; unfold built in Hi.
  - rewrite (events_bind _ _ _ _ _ _
               (setup_account_returned cfg (username cfg) hass acc Hi)).
    cbn [result]. unfold bind. rewrite run_on_update.
    destruct (result (update acc)); reflexivity.
  - rewrite (bind_raised _ _ _ _ _ _
               (setup_account_raised cfg (username cfg) hass e Hi)).
    reflexivity.
Qed.

(** An account fresh from [__init__] has no listener: its first [update]
    raises exactly what the vendor refresh raises, [OSError]s apart. *)
Lemma built_no_listener (cfg : account_config) (acc : Account) :
  built cfg = Returned acc -> _update_listeners acc = [].
Proof.
  unfold built, __init__.
  destruct (get_region_from_name (region cfg)) as [r|e]; [|discriminate].
  destruct (ConnectedDriveAccount (username cfg) (password cfg) r)
    as [s|e]; [|discriminate].
  intro H. injection H as <-. reflexivity.
Qed.

(** When the probe raises, [async_setup_entry] raises in its turn and
    [hass] is left as [setdefault] made it. *)
Lemma async_setup_entry_probe_raised (entry : ConfigEntry) (hass : Hass)
    (e : exc_class) :
  result (setup_and_refresh (entry_data entry) (setdefault_domain hass))
    = Raised e ->
  final (async_setup_entry entry hass) = setdefault_domain hass /\
  result (async_setup_entry entry hass) =
    Raised (if issubclass e Exception then ConfigEntryNotReady else e).
Proof.
  intro Hr.
  pose proof (ran_eta (setup_and_refresh (entry_data entry)
                                         (setdefault_domain hass))) as Hp.
  rewrite Hr, setup_and_refresh_final in Hp.
  unfold async_setup_entry.
  assert (H0 : (hass0 <- get ;; put (setdefault_domain hass0)) hass =
               Ran (setdefault_domain hass) [] (Returned tt)) by reflexivity.
  rewrite (events_bind _ _ _ _ _ _ H0).
  destruct (issubclass e Exception) eqn:He.
  - erewrite (bind_raised _ _ (setdefault_domain hass));
      [split; reflexivity|].
    erewrite try_except_handled; [| exact Hp | rewrite He; reflexivity].
    reflexivity.
  - erewrite (bind_raised _ _ (setdefault_domain hass));
      [split; reflexivity|].
    erewrite try_except_passed; [| exact Hp | rewrite He; reflexivity].
    reflexivity.
Qed.


(** A refresh of the account stored under [k] keeps every entry of the
    map in place. *)
Lemma update_entry_keeps (id k : string) (hass : Hass) :
  entry_account hass id <> None ->
  entry_account (final (update_entry k hass)) id <> None.
Proof.
  unfold update_entry, entry_account. intro H.
  destruct (data hass) as [d|] eqn:Hd; [|exfalso; now apply H].
  destruct (dict_get d k) as [acc|] eqn:Hk; [|cbn [final]; now rewrite Hd].
  destruct (update acc) as [acc' t r]. cbn [final set_data data].
  destruct (String.eqb id k) eqn:Hid.
  - apply String.eqb_eq in Hid. subst k. rewrite dict_get_set_same.
    discriminate.
  - now rewrite (dict_get_set_other d k id acc' Hid).
Qed.

(** Once the account is inserted, the rest of the setup leaves it in the
    map, whatever the refresh of all accounts does. *)
Lemma finish_setup_keeps (entry : ConfigEntry) (acc : Account) (hass : Hass)
    (d : dict Account) :
  data hass = Some d ->
  entry_account (final (finish_setup entry acc hass)) (entry_id entry)
  <> None.
Proof.
  intro Hd. unfold finish_setup.
  set (P := fun h : Hass => entry_account h (entry_id entry) <> None).
  change (P (final
    (((d0 <- data_domain ;;
       hass0 <- get ;;
       put (set_data hass0 (Some (dict_set d0 (entry_id entry) acc)))) ;;;
      emit (ServiceRegistered DOMAIN SERVICE_UPDATE_STATE) ;;;
      _update_all ;;;
      for_each BMW_COMPONENTS
        (fun platform =>
           if negb (String.eqb platform "notify")
           then emit (ForwardEntrySetup (entry_id entry) platform)
           else ret tt) ;;;
      emit (LoadPlatform "notify") ;;;
      ret true) hass))).
  apply bind_keeps.
  - unfold P, entry_account, bind, data_domain, get. cbn. rewrite Hd. cbn.
    rewrite dict_get_set_same. discriminate.
  - intros _ s1 H1. apply bind_keeps; [exact H1|].
    intros _ s2 H2. apply bind_keeps.
    + unfold _update_all. apply bind_keeps.
      * unfold data_domain, bind, get. cbn.
        destruct (data s2); exact H2.
      * intros d2 s3 H3. apply for_each_keeps; [|exact H3].
        intros k s4 H4. now apply update_entry_keeps.
    + intros _ s3 H3. apply bind_keeps.
      * apply for_each_keeps; [|exact H3].
        intros x s4 H4.
        destruct (negb (String.eqb x "notify")); exact H4.
      * intros _ s4 H4. apply bind_keeps; [exact H4|].
        intros _ s5 H5. exact H5.
Qed.

(** When the probe returns, the account it built is inserted and stays. *)
Lemma async_setup_entry_probe_returned (entry : ConfigEntry) (hass : Hass)
    (acc : Account) :
  result (setup_and_refresh (entry_data entry) (setdefault_domain hass))
    = Returned acc ->
  entry_account (final (async_setup_entry entry hass)) (entry_id entry)
  <> None.
Proof.
  intro Hr.
  pose proof (ran_eta (setup_and_refresh (entry_data entry)
                                         (setdefault_domain hass))) as Hp.
  rewrite Hr, setup_and_refresh_final in Hp.
  unfold async_setup_entry.
  assert (H0 : (hass0 <- get ;; put (setdefault_domain hass0)) hass =
               Ran (setdefault_domain hass) [] (Returned tt)) by reflexivity.
  rewrite (events_bind _ _ _ _ _ _ H0). cbn [final].
  erewrite events_bind;
    [| erewrite try_except_returned; [reflexivity | exact Hp]].
  cbn [final].
  assert (Hd : exists d, data (setdefault_domain hass) = Some d).
  { unfold setdefault_domain. destruct (data hass) as [d|] eqn:Hd.
    - now exists d.
    - now exists []. }
  destruct Hd as [d Hd].
  exact (finish_setup_keeps entry acc (setdefault_domain hass) d Hd).
Qed.

(** C6 (amended): when the vendor refresh of the initial [update] raises
    an exception [e] derived from [Exception], the outcome depends on [e]:
    unless it is an [OSError], [async_setup_entry] raises
    [ConfigEntryNotReady] and inserts nothing into the map; an [OSError]
    is swallowed by [update], and the account is inserted under the entry
    id. *)
Theorem async_setup_entry_not_ready
    (entry : ConfigEntry) (hass : Hass) (acc : Account) (s' : session)
    (e : exc_class) :
  built (entry_data entry) = Returned acc ->
  update_vehicle_states (account acc) = (s', Raised e) ->
  issubclass e Exception = true ->
  let r := async_setup_entry entry hass in
  if issubclass e OSError
  then entry_account (final r) (entry_id entry) <> None
  else result r = Raised ConfigEntryNotReady /\
       data (final r) = data (setdefault_domain hass) /\
       entry_account (final r) (entry_id entry)
       = entry_account hass (entry_id entry).
Proof.
  intros Hb Hv He. cbv zeta.
  pose proof (setup_and_refresh_result (entry_data entry)
                                       (setdefault_domain hass)) as Hres.
  rewrite Hb, (update_refresh_raised acc s' e Hv) in Hres.
  destruct (issubclass e OSError) eqn:Hos; cbn [result] in Hres.
  - exact (async_setup_entry_probe_returned entry hass _ Hres).
  - destruct (async_setup_entry_probe_raised entry hass e Hres) as [Hf Hx].
    rewrite Hx, He, Hf. repeat split.
    apply entry_account_setdefault.
Qed.

End SetupProperties.

(** ** The config flow *)

Section ConfigFlowProperties.

Context {session : Type} {vendor : VendorClient session}.

Local Abbreviation Hass := (HomeAssistant session).

(** [validate_input] turns every [Exception] of the probe into
    [InvalidAuth]. *)
Lemma validate_input_raised (ui : account_config) (hass : Hass)
    (e : exc_class) :
  result (setup_and_refresh ui hass) = Raised e ->
  validate_input ui hass =
  Ran hass (events (setup_and_refresh ui hass))
      (Raised (if issubclass e Exception then InvalidAuth else e)).
Proof.
  intro Hr.
  pose proof (ran_eta (setup_and_refresh ui hass)) as Hp.
  rewrite Hr, setup_and_refresh_final in Hp.
  assert (Hb : (setup_and_refresh ui ;;; ret tt) hass =
               Ran hass (events (setup_and_refresh ui hass)) (Raised e)).
  { now rewrite (bind_raised _ _ _ _ _ _ Hp). }
  unfold validate_input.
  destruct (issubclass e Exception) eqn:He.
  - erewrite bind_raised; [reflexivity|].
    erewrite try_except_handled; [| exact Hb | rewrite He; reflexivity].
    cbn. now rewrite app_nil_r.
  - erewrite bind_raised; [reflexivity|].
    erewrite try_except_passed; [| exact Hb | rewrite He; reflexivity].
    reflexivity.
Qed.

Lemma validate_input_returned (ui : account_config) (hass : Hass)
    (acc : BMWConnectedDriveAccount session) :
  result (setup_and_refresh ui hass) = Returned acc ->
  validate_input ui hass =
  Ran hass (events (setup_and_refresh ui hass)) (Returned (username ui)).
Proof.
  intro Hr.
  pose proof (ran_eta (setup_and_refresh ui hass)) as Hp.
  rewrite Hr, setup_and_refresh_final in Hp.
  assert (Hb : (setup_and_refresh ui ;;; ret tt) hass =
               Ran hass (events (setup_and_refresh ui hass)) (Returned tt)).
  { rewrite (events_bind _ _ _ _ _ _ Hp). cbn. now rewrite app_nil_r. }
  unfold validate_input.
  erewrite events_bind; [| erewrite try_except_returned; [reflexivity | exact Hb]].
  cbn. now rewrite app_nil_r.
Qed.

(** Whatever the probe does, [validate_input] raises nothing that is an
    [Exception] other than [InvalidAuth]. *)
Lemma validate_input_raises_InvalidAuth (ui : account_config) (hass : Hass)
    (e : exc_class) :
  result (validate_input ui hass) = Raised e ->
  e = InvalidAuth \/ issubclass e Exception = false.
Proof.
  destruct (result (setup_and_refresh ui hass)) as [acc|e0] eqn:Hr.
  - rewrite (validate_input_returned ui hass acc Hr). discriminate.
  - rewrite (validate_input_raised ui hass e0 Hr). cbn [result].
    destruct (issubclass e0 Exception) eqn:He; intro H; injection H as <-;
      [left; reflexivity | right; exact He].
Qed.

(** C8 (amended): when the probe of a submission raises an exception
    derived from [Exception], whatever its cause, the form is shown again
    with the error [invalid_auth], and no entry is created. *)
Theorem async_step_user_probe_failure (ui : account_config) (hass : Hass)
    (e : exc_class) :
  existsb (String.eqb (region ui ++ "-" ++ username ui)%string)
          (configured_unique_ids hass) = false ->
  result (setup_and_refresh ui hass) = Raised e ->
  issubclass e Exception = true ->
  result (async_step_user (Some ui) hass)
  = Returned (ShowForm "user" [("base", "invalid_auth")]).
Proof.
  intros Hid Hr He.
  pose proof (validate_input_raised ui hass e Hr) as Hv. rewrite He in Hv.
  unfold async_step_user.
  unfold bind at 1. cbn [get]. rewrite Hid.
  unfold bind at 1. cbn [ret].
  assert (Hb : (title <- validate_input ui ;;
                ret (inl (B := dict string) (CreateEntry title ui))) hass =
               Ran hass (events (setup_and_refresh ui hass))
                   (Raised InvalidAuth)).
  { now rewrite (bind_raised _ _ _ _ _ _ Hv). }
  unfold bind at 1.
  erewrite try_except_handled; [| exact Hb | reflexivity].
  reflexivity.
Qed.

(** No submission is ever answered with the connectivity error or the
    unknown error. *)
Lemma async_step_user_errors (user_input : option account_config)
    (hass : Hass) (errors : dict string) :
  result (async_step_user user_input hass)
  = Returned (ShowForm "user" errors) ->
  errors = [] \/ errors = [("base", "invalid_auth")].
Proof.
  destruct user_input as [ui|]; cbn [async_step_user].
  2:{ intro H. injection H as <-. now left. }
  unfold bind at 1. cbn [get].
  destruct (existsb _ (configured_unique_ids hass)); [discriminate|].
  unfold bind at 1. cbn [ret].
  destruct (result (setup_and_refresh ui hass)) as [acc|e] eqn:Hr.
  - pose proof (validate_input_returned ui hass acc Hr) as Hv.
    unfold bind at 1.
    erewrite try_except_returned;
      [| now rewrite (events_bind _ _ _ _ _ _ Hv)].
    cbn. discriminate.
  - pose proof (validate_input_raised ui hass e Hr) as Hv.
    assert (Hb : (title <- validate_input ui ;;
                  ret (inl (B := dict string) (CreateEntry title ui))) hass =
                 Ran hass (events (setup_and_refresh ui hass))
                     (Raised (if issubclass e Exception
                              then InvalidAuth else e))).
    { now rewrite (bind_raised _ _ _ _ _ _ Hv). }
    unfold bind at 1.
    destruct (issubclass e Exception) eqn:He.
    + erewrite try_except_handled; [| exact Hb | reflexivity].
      cbn. intro H. injection H as <-. now right.
    + assert (Hnone : issubclass e CannotConnect = false /\
                      issubclass e InvalidAuth = false /\
                      issubclass e OSError = false).
      { destruct e; try discriminate He; repeat split. }
      destruct Hnone as (H1 & H2 & H3).
      erewrite try_except_passed;
        [| exact Hb | rewrite H1, H2, H3, He; reflexivity].
      discriminate.
Qed.

End ConfigFlowProperties.

(** ** The account wrapper on concrete accounts *)

Lemma update_notifies_in_registration_order_witness :
  (_update_listeners Scripted.acc_fresh = [] /\
   Forall returns [Scripted.quiet 1; Scripted.quiet 2; Scripted.quiet 1]) /\
  (result (update (vendor := Scripted.V)
             (fold_left add_update_listener
                [Scripted.quiet 1; Scripted.quiet 2; Scripted.quiet 1]
                Scripted.acc_fresh)) = Returned tt /\
   listeners_invoked
     (events (update (vendor := Scripted.V)
                (fold_left add_update_listener
                   [Scripted.quiet 1; Scripted.quiet 2; Scripted.quiet 1]
                   Scripted.acc_fresh))) = [1; 2; 1]).
Proof.
  assert (H : Forall returns
                [Scripted.quiet 1; Scripted.quiet 2; Scripted.quiet 1])
    by (repeat constructor).
  split; [split; [reflexivity | exact H]|].
  exact (update_notifies_in_registration_order (vendor := Scripted.V)
           Scripted.acc_fresh
           [Scripted.quiet 1; Scripted.quiet 2; Scripted.quiet 1]
           {| Scripted.held_vins := ["WBA1234"]; Scripted.fault := None;
              Scripted.refreshes := 1 |}
           eq_refl eq_refl H).
Defined.

(** C3, as stated, fails: the refresh succeeds, listener 1 raises
    [ValueError], and listener 2, registered after it, is never invoked. *)
Lemma update_skips_listeners_after_a_raise :
  snd (update_vehicle_states (VendorClient := Scripted.V)
         (account Scripted.acc_noisy)) = Returned tt /\
  map listener_id (_update_listeners Scripted.acc_noisy) = [1; 2] /\
  listeners_invoked (events (update (vendor := Scripted.V) Scripted.acc_noisy))
  = [1] /\
  listeners_invoked (events (update (vendor := Scripted.V) Scripted.acc_noisy))
  <> map listener_id (_update_listeners Scripted.acc_noisy).
Proof.
  repeat split; try reflexivity. vm_compute. discriminate.
Qed.

Lemma update_listener_exception_witness :
  listeners_invoked (events (update (vendor := Scripted.V) Scripted.acc_io))
  = [1; 2] /\
  result (update (vendor := Scripted.V) Scripted.acc_io) = Returned tt /\
  errors_logged (events (update (vendor := Scripted.V) Scripted.acc_io)) =
  ["Could not connect to the BMW Connected Drive portal. The vehicle state could not be updated."].
Proof.
  exact (update_listener_exception (vendor := Scripted.V) Scripted.acc_io
           {| Scripted.held_vins := ["WBA1234"]; Scripted.fault := None;
              Scripted.refreshes := 1 |}
           [Scripted.quiet 1] [Scripted.quiet 3]
           (Scripted.noisy 2 ConnectionError) ConnectionError
           eq_refl eq_refl
           (Forall_cons (Scripted.quiet 1) eq_refl (Forall_nil returns))
           eq_refl).
Defined.

(** C4, as stated, fails: a listener raises [ConnectionError] during the
    fan-out of a successful refresh, and [update] returns normally instead
    of letting the exception reach its caller. *)
Lemma update_swallows_listener_OSError :
  snd (update_vehicle_states (VendorClient := Scripted.V)
         (account Scripted.acc_io)) = Returned tt /\
  In (Scripted.noisy 2 ConnectionError) (_update_listeners Scripted.acc_io) /\
  In (ListenerCalled 2)
     (events (update (vendor := Scripted.V) Scripted.acc_io)) /\
  result (update (vendor := Scripted.V) Scripted.acc_io) = Returned tt /\
  result (update (vendor := Scripted.V) Scripted.acc_io)
  <> Raised ConnectionError.
Proof.
  repeat split; try reflexivity.
  - simpl. auto.
  - vm_compute. auto.
  - vm_compute. discriminate.
Qed.

Lemma update_transport_error_swallowed_witness :
  (update_vehicle_states (VendorClient := Scripted.V)
     (account Scripted.acc_offline)
   = (Scripted.failing ConnectionError, Raised ConnectionError) /\
   issubclass ConnectionError OSError = true) /\
  result (update (vendor := Scripted.V) Scripted.acc_offline) = Returned tt /\
  listeners_invoked
    (events (update (vendor := Scripted.V) Scripted.acc_offline)) = [] /\
  events (update (vendor := Scripted.V) Scripted.acc_offline) =
    [update_debug Scripted.acc_offline; portal_error;
     LogException None ConnectionError] /\
  final (update (vendor := Scripted.V) Scripted.acc_offline) =
    with_session Scripted.acc_offline (Scripted.failing ConnectionError) /\
  (Scripted.failing ConnectionError = account Scripted.acc_offline ->
   final (update (vendor := Scripted.V) Scripted.acc_offline)
   = Scripted.acc_offline).
Proof.
  split; [split; reflexivity|].
  exact (update_transport_error_swallowed (vendor := Scripted.V)
           Scripted.acc_offline (Scripted.failing ConnectionError)
           ConnectionError eq_refl eq_refl).
Defined.

(** C5, as stated, fails: the vendor refresh raises [ConnectionError]
    after it has changed the session; [update] swallows the error and the
    account is left with the changed session, not with the snapshot it
    had. *)
Lemma update_keeps_what_a_failed_refresh_changed :
  update_vehicle_states (VendorClient := torn_vendor)
    (account Scripted.acc_fresh)
  = ({| Scripted.held_vins := ["WBA1234"]; Scripted.fault := None;
        Scripted.refreshes := 1 |}, Raised ConnectionError) /\
  issubclass ConnectionError OSError = true /\
  result (update (vendor := torn_vendor) Scripted.acc_fresh) = Returned tt /\
  account (final (update (vendor := torn_vendor) Scripted.acc_fresh))
  = {| Scripted.held_vins := ["WBA1234"]; Scripted.fault := None;
       Scripted.refreshes := 1 |} /\
  account (final (update (vendor := torn_vendor) Scripted.acc_fresh))
  <> account Scripted.acc_fresh.
Proof.
  repeat split; try reflexivity. vm_compute. discriminate.
Qed.

(** ** Entry unload on a concrete host *)

Lemma async_unload_entry_teardown_witness :
  (data Scripted.hass_one = Some [("entry-a", Scripted.acc_fresh)] /\
   dict_get [("entry-a", Scripted.acc_fresh)] (entry_id Scripted.entry_a)
   = Some Scripted.acc_fresh) /\
  services_removed
    (events (async_unload_entry (host := Scripted.scripted_host true true)
               Scripted.entry_a Scripted.hass_one)) = COMMANDS /\
  final (async_unload_entry (host := Scripted.scripted_host true true)
           Scripted.entry_a Scripted.hass_one)
  = Scripted.hass_with (Some []) /\
  result (async_unload_entry (host := Scripted.scripted_host true true)
            Scripted.entry_a Scripted.hass_one) = Returned true.
Proof.
  split; [split; reflexivity|].
  exact (proj2 (async_unload_entry_teardown
                  (host := Scripted.scripted_host true true)
                  Scripted.entry_a Scripted.hass_one
                  [("entry-a", Scripted.acc_fresh)] Scripted.acc_fresh
                  eq_refl eq_refl)).
Defined.

(** C9, as stated, fails: every platform unloads, the deregistration of
    the commands fails, the account stays in the map, and the value
    returned to the host is true. *)
Lemma async_unload_entry_hides_command_failure :
  forallb (async_forward_entry_unload
             (HostFramework := Scripted.scripted_host true false) "entry-a")
          BMW_COMPONENTS = true /\
  forallb (services_remove
             (HostFramework := Scripted.scripted_host true false) DOMAIN)
          COMMANDS = false /\
  entry_account
    (final (async_unload_entry (host := Scripted.scripted_host true false)
              Scripted.entry_a Scripted.hass_one)) "entry-a"
  = Some Scripted.acc_fresh /\
  result (async_unload_entry (host := Scripted.scripted_host true false)
            Scripted.entry_a Scripted.hass_one) = Returned true /\
  result (async_unload_entry (host := Scripted.scripted_host true false)
            Scripted.entry_a Scripted.hass_one) <> Returned false.
Proof.
  repeat split; try reflexivity. vm_compute. discriminate.
Qed.

(** ** Entry setup and config flow on concrete vendors *)

(** C6, as stated, fails: the vendor refresh raises [ConnectionError]
    during the initial refresh, [update] swallows it, and
    [async_setup_entry] returns true with the account inserted. *)
Lemma async_setup_entry_ignores_transport_error :
  built (vendor := Scripted.V_refresh_fails ConnectionError) Scripted.cfg_a
  = Returned (Scripted.account_of (Scripted.failing ConnectionError) []) /\
  update_vehicle_states (VendorClient := Scripted.V_refresh_fails ConnectionError)
    (Scripted.failing ConnectionError)
  = (Scripted.failing ConnectionError, Raised ConnectionError) /\
  result (async_setup_entry (vendor := Scripted.V_refresh_fails ConnectionError)
            Scripted.entry_a (Scripted.hass_with None)) = Returned true /\
  entry_account
    (final (async_setup_entry
              (vendor := Scripted.V_refresh_fails ConnectionError)
              Scripted.entry_a (Scripted.hass_with None))) "entry-a"
  = Some (Scripted.account_of (Scripted.failing ConnectionError) []) /\
  result (async_setup_entry (vendor := Scripted.V_refresh_fails ConnectionError)
            Scripted.entry_a (Scripted.hass_with None))
  <> Raised ConfigEntryNotReady.
Proof.
  repeat split; try reflexivity. vm_compute. discriminate.
Qed.

Lemma async_setup_entry_not_ready_witness :
  (issubclass ValueError Exception = true /\
   issubclass ValueError OSError = false) /\
  result (async_setup_entry (vendor := Scripted.V_refresh_fails ValueError)
            Scripted.entry_a (Scripted.hass_with None))
  = Raised ConfigEntryNotReady /\
  data (final (async_setup_entry (vendor := Scripted.V_refresh_fails ValueError)
                 Scripted.entry_a (Scripted.hass_with None)))
  = Some [] /\
  entry_account
    (final (async_setup_entry (vendor := Scripted.V_refresh_fails ValueError)
              Scripted.entry_a (Scripted.hass_with None))) "entry-a"
  = None.
Proof.
  split; [split; reflexivity|].
  exact (async_setup_entry_not_ready
           (vendor := Scripted.V_refresh_fails ValueError)
           Scripted.entry_a (Scripted.hass_with None)
           (Scripted.account_of (Scripted.failing ValueError) [])
           (Scripted.failing ValueError) ValueError
           eq_refl eq_refl eq_refl).
Defined.


(** C8, as stated, fails: the login of the probe raises
    [ConnectionError], a connectivity failure, and the form comes back
    with the authentication error, not the connectivity error. *)
Lemma async_step_user_reports_invalid_auth_on_io_failure :
  result (setup_and_refresh (vendor := Scripted.V_login_fails ConnectionError)
            Scripted.cfg_a (Scripted.hass_with None))
  = Raised ConnectionError /\
  issubclass ConnectionError OSError = true /\
  result (async_step_user (vendor := Scripted.V_login_fails ConnectionError)
            (Some Scripted.cfg_a) (Scripted.hass_with None))
  = Returned (ShowForm "user" [("base", "invalid_auth")]) /\
  result (async_step_user (vendor := Scripted.V_login_fails ConnectionError)
            (Some Scripted.cfg_a) (Scripted.hass_with None))
  <> Returned (ShowForm "user" [("base", "cannot_connect")]).
Proof.
  repeat split; try reflexivity. vm_compute. discriminate.
Qed.

Lemma async_step_user_probe_failure_witness :
  (existsb (String.eqb (region Scripted.cfg_a ++ "-"
                        ++ username Scripted.cfg_a)%string)
           (configured_unique_ids (Scripted.hass_with None)) = false /\
   result (setup_and_refresh (vendor := Scripted.V_refresh_fails KeyError)
             Scripted.cfg_a (Scripted.hass_with None)) = Raised KeyError /\
   issubclass KeyError Exception = true) /\
  result (async_step_user (vendor := Scripted.V_refresh_fails KeyError)
            (Some Scripted.cfg_a) (Scripted.hass_with None))
  = Returned (ShowForm "user" [("base", "invalid_auth")]).
Proof.
  split; [repeat split|].
  exact (async_step_user_probe_failure
           (vendor := Scripted.V_refresh_fails KeyError)
           Scripted.cfg_a (Scripted.hass_with None) KeyError
           eq_refl eq_refl eq_refl).
Defined.

(** * Further properties of the code *)

(** ** [BMWConnectedDriveAccount.update] and [add_update_listener] *)

Section MoreAccountProperties.

Context {session : Type} {vendor : VendorClient session}.

Local Abbreviation Account := (BMWConnectedDriveAccount session).

Lemma returnsb_true (l : listener) : returnsb l = true -> returns l.
Proof.
  unfold returnsb, returns. destruct (listener_outcome l) as [[]|e];
    [reflexivity | discriminate].
Qed.

Lemma returnsb_false (l : listener) :
  returnsb l = false -> exists e, listener_outcome l = Raised e.
Proof.
  unfold returnsb. destruct (listener_outcome l) as [u|e];
    [discriminate | now exists e].
Qed.

(** A list of listeners either returns throughout or has a first
    listener that raises. *)
Lemma listeners_split (ls : list listener) :
  (Forall returns ls /\ reached ls = ls) \/
  exists pre l post e,
    ls = pre ++ l :: post /\ Forall returns pre /\
    listener_outcome l = Raised e /\ reached ls = pre ++ [l].
Proof.
  induction ls as [|l ls IH].
  - left. split; [constructor | reflexivity].
  - cbn [reached]. destruct (returnsb l) eqn:Hl.
    + apply returnsb_true in Hl.
      destruct IH as [[Hall Hr] | (pre & l' & post & e & -> & Hpre & Hl' & Hr)].
      * left. split; [now constructor | now rewrite Hr].
      * right. exists (l :: pre), l', post, e.
        repeat split; [now constructor | exact Hl' | now rewrite Hr].
    + apply returnsb_false in Hl. destruct Hl as [e He].
      right. exists [], l, ls, e. repeat split; [constructor | exact He].
Qed.

(** The fan-out never writes to the account. *)
Lemma notify_final (ls : list listener) (self : Account) :
  final (for_each ls call_listener self) = self.
Proof.
  apply (for_each_keeps (fun s => s = self)); [|reflexivity].
  intros l s ->. unfold call_listener, bind, emit.
  destruct (listener_outcome l); reflexivity.
Qed.

Lemma errors_logged_calls (ids : list nat) :
  errors_logged (map ListenerCalled ids) = [].
Proof. induction ids as [|i ids IH]; simpl; [reflexivity | exact IH]. Qed.

Lemma errors_logged_app (t u : list event) :
  errors_logged (t ++ u) = errors_logged t ++ errors_logged u.
Proof. unfold errors_logged. apply flat_map_app. Qed.

(** The listeners invoked by a fan-out are the reached ones. *)
Lemma notify_invocations (ls : list listener) (self : Account) :
  listeners_invoked (events (for_each ls call_listener self))
  = map listener_id (reached ls).
Proof.
  destruct (listeners_split ls)
    as [[Hall Hr] | (pre & l & post & e & -> & Hpre & Hl & Hr)]; rewrite Hr.
  - rewrite (notify_all_return ls self Hall). apply listeners_invoked_calls.
  - rewrite (notify_first_raise pre post l e self Hpre Hl).
    apply listeners_invoked_calls.
Qed.

(** X1: a failure of the vendor refresh that is not an [OSError] is not
    caught by [update]: it propagates to the caller, no listener is
    invoked and nothing but the debug record is logged. *)
Theorem update_refresh_failure_propagates
    (self : Account) (s' : session) (e : exc_class) :
  update_vehicle_states (account self) = (s', Raised e) ->
  issubclass e OSError = false ->
  result (update self) = Raised e /\
  events (update self) = [update_debug self] /\
  listeners_invoked (events (update self)) = [] /\
  errors_logged (events (update self)) = [].
Proof.
  intros Hv Hos. rewrite (update_refresh_raised self s' e Hv), Hos.
  repeat split.
Qed.

(** X2: whatever the vendor call and the listeners do, [update] leaves
    the read-only flag, the name and the list of listeners of the account
    as they were; the vendor session is the one the vendor call left. *)
Theorem update_keeps_account_fields (self : Account) :
  read_only (final (update self)) = read_only self /\
  name (final (update self)) = name self /\
  _update_listeners (final (update self)) = _update_listeners self /\
  account (final (update self))
  = fst (update_vehicle_states (account self)).
Proof.
  destruct (update_vehicle_states (account self)) as [s' [[]|e]] eqn:Hv.
  - rewrite (update_refresh_returned self s' Hv).
    pose proof (notify_final (_update_listeners self) (with_session self s'))
      as Hf.
    destruct (for_each (_update_listeners self) call_listener
                       (with_session self s')) as [s2 t [a|e]];
      cbn [final] in Hf; subst s2.
    + repeat split.
    + destruct (issubclass e OSError); repeat split.
  - rewrite (update_refresh_raised self s' e Hv).
    destruct (issubclass e OSError); repeat split.
Qed.

Lemma update_invocations (self : Account) (s' : session) :
  update_vehicle_states (account self) = (s', Returned tt) ->
  listeners_invoked (events (update self))
  = map listener_id (reached (_update_listeners self)).
Proof.
  intro Hv. rewrite (update_refresh_returned self s' Hv).
  rewrite <- (notify_invocations (_update_listeners self)
                                 (with_session self s')).
  destruct (for_each (_update_listeners self) call_listener
                     (with_session self s')) as [s2 t [a|e]]; cbn [events].
  - reflexivity.
  - destruct (issubclass e OSError); cbn [events]; [|reflexivity].
    change (update_debug self :: t ++ [portal_error; LogException None e])
      with ((update_debug self :: t) ++ [portal_error; LogException None e]).
    rewrite listeners_invoked_app. cbn. now rewrite app_nil_r.
Qed.

(** X3: after a successful vendor refresh, [update] invokes exactly the
    listeners up to and including the first one that raises, in
    registration order, each once. *)
Theorem update_invokes_reached_listeners (self : Account) (s' : session) :
  update_vehicle_states (account self) = (s', Returned tt) ->
  listeners_invoked (events (update self))
  = map listener_id (reached (_update_listeners self)).
Proof.
  intro Hv. rewrite (update_refresh_returned self s' Hv).
  rewrite <- (notify_invocations (_update_listeners self)
                                 (with_session self s')).
  destruct (for_each (_update_listeners self) call_listener
                     (with_session self s')) as [s2 t [a|e]]; cbn [events].
  - reflexivity.
  - destruct (issubclass e OSError); cbn [events]; [|reflexivity].
    change (update_debug self :: t ++ [portal_error; LogException None e])
      with ((update_debug self :: t) ++ [portal_error; LogException None e]).
    rewrite listeners_invoked_app. cbn. now rewrite app_nil_r.
Qed.

(** X4: if [update] returns normally without logging an error, then the
    vendor refresh succeeded, no listener raised, and every registered
    listener was invoked exactly once, in registration order. *)
Theorem update_quiet_return_means_all_notified (self : Account) :
  result (update self) = Returned tt ->
  errors_logged (events (update self)) = [] ->
  snd (update_vehicle_states (account self)) = Returned tt /\
  Forall returns (_update_listeners self) /\
  listeners_invoked (events (update self))
  = map listener_id (_update_listeners self).
Proof.
  destruct (update_vehicle_states (account self)) as [s' [[]|e]] eqn:Hv.
  - pose proof (update_invocations self s' Hv) as Hinv.
    rewrite (update_refresh_returned self s' Hv) in *.
    destruct (listeners_split (_update_listeners self))
      as [[Hall Hr] | (pre & l & post & e & Hls & Hpre & Hl & Hr)].
    + intros _ _. rewrite Hr in Hinv. now repeat split.
    + rewrite Hls.
      rewrite (notify_first_raise pre post l e (with_session self s') Hpre Hl).
      destruct (issubclass e OSError); cbn [result events].
      * intros _ Herr. exfalso.
        change (update_debug self
                  :: map ListenerCalled (map listener_id (pre ++ [l]))
                  ++ [portal_error; LogException None e])
          with ([update_debug self]
                  ++ map ListenerCalled (map listener_id (pre ++ [l]))
                  ++ [portal_error; LogException None e]) in Herr.
        rewrite !errors_logged_app, errors_logged_calls in Herr.
        discriminate Herr.
      * discriminate.
  - rewrite (update_refresh_raised self s' e Hv).
    destruct (issubclass e OSError); cbn [result events].
    + intros _ Herr. discriminate Herr.
    + discriminate.
Qed.

Lemma reached_app_one (ls : list listener) (l : listener) :
  reached (ls ++ [l])
  = reached ls ++ (if forallb returnsb ls then [l] else []).
Proof.
  induction ls as [|l0 ls IH]; cbn [app reached forallb].
  - now destruct (returnsb l).
  - destruct (returnsb l0); cbn [andb app].
    + now rewrite IH.
    + reflexivity.
Qed.

(** X5: a listener registered with [add_update_listener] is invoked
    after all the listeners registered before it, and only if none of them
    raises; the invocations of the earlier listeners are unchanged, and a
    listener already registered is not deduplicated. *)
Theorem update_after_add_update_listener
    (self : Account) (l : listener) (s' : session) :
  update_vehicle_states (account self) = (s', Returned tt) ->
  listeners_invoked (events (update (add_update_listener self l)))
  = listeners_invoked (events (update self))
    ++ (if forallb returnsb (_update_listeners self)
        then [listener_id l] else []).
Proof.
  intro Hv.
  rewrite (update_invocations self s' Hv).
  rewrite (update_invocations (add_update_listener self l) s' Hv).
  cbn [add_update_listener _update_listeners].
  rewrite reached_app_one, map_app.
  destruct (forallb returnsb (_update_listeners self)); reflexivity.
Qed.

End MoreAccountProperties.

Lemma update_refresh_failure_propagates_witness :
  result (update (vendor := Scripted.V)
            (Scripted.account_of (Scripted.failing ValueError)
                                 [Scripted.quiet 1])) = Raised ValueError /\
  events (update (vendor := Scripted.V)
            (Scripted.account_of (Scripted.failing ValueError)
                                 [Scripted.quiet 1]))
  = [update_debug (Scripted.account_of (Scripted.failing ValueError)
                                       [Scripted.quiet 1])] /\
  listeners_invoked
    (events (update (vendor := Scripted.V)
               (Scripted.account_of (Scripted.failing ValueError)
                                    [Scripted.quiet 1]))) = [] /\
  errors_logged
    (events (update (vendor := Scripted.V)
               (Scripted.account_of (Scripted.failing ValueError)
                                    [Scripted.quiet 1]))) = [].
Proof.
  exact (update_refresh_failure_propagates (vendor := Scripted.V)
           (Scripted.account_of (Scripted.failing ValueError)
                                [Scripted.quiet 1])
           (Scripted.failing ValueError) ValueError eq_refl eq_refl).
Defined.

Lemma update_invokes_reached_listeners_witness :
  listeners_invoked (events (update (vendor := Scripted.V) Scripted.acc_io))
  = [1; 2].
Proof.
  exact (update_invokes_reached_listeners (vendor := Scripted.V)
           Scripted.acc_io
           {| Scripted.held_vins := ["WBA1234"]; Scripted.fault := None;
              Scripted.refreshes := 1 |} eq_refl).
Defined.

Lemma update_quiet_return_means_all_notified_witness :
  snd (update_vehicle_states (VendorClient := Scripted.V)
         (account (Scripted.account_of (Scripted.online ["WBA1234"])
                     [Scripted.quiet 4; Scripted.quiet 5])))
  = Returned tt /\
  Forall returns [Scripted.quiet 4; Scripted.quiet 5] /\
  listeners_invoked
    (events (update (vendor := Scripted.V)
               (Scripted.account_of (Scripted.online ["WBA1234"])
                  [Scripted.quiet 4; Scripted.quiet 5]))) = [4; 5].
Proof.
  exact (update_quiet_return_means_all_notified (vendor := Scripted.V)
           (Scripted.account_of (Scripted.online ["WBA1234"])
              [Scripted.quiet 4; Scripted.quiet 5])
           eq_refl eq_refl).
Defined.

Lemma update_after_add_update_listener_witness :
  listeners_invoked
    (events (update (vendor := Scripted.V)
               (add_update_listener Scripted.acc_noisy (Scripted.quiet 9))))
  = [1] /\
  listeners_invoked
    (events (update (vendor := Scripted.V)
               (add_update_listener
                  (Scripted.account_of (Scripted.online ["WBA1234"])
                     [Scripted.quiet 4; Scripted.quiet 5])
                  (Scripted.quiet 4))))
  = [4; 5; 4].
Proof.
  split.
  - exact (update_after_add_update_listener (vendor := Scripted.V)
             Scripted.acc_noisy (Scripted.quiet 9)
             {| Scripted.held_vins := ["WBA1234"]; Scripted.fault := None;
                Scripted.refreshes := 1 |} eq_refl).
  - exact (update_after_add_update_listener (vendor := Scripted.V)
             (Scripted.account_of (Scripted.online ["WBA1234"])
                [Scripted.quiet 4; Scripted.quiet 5])
             (Scripted.quiet 4)
             {| Scripted.held_vins := ["WBA1234"]; Scripted.fault := None;
                Scripted.refreshes := 1 |} eq_refl).
Defined.

(** ** [setup_account] and [execute_service] *)

Section MoreSetupAccountProperties.

Context {session : Type} {vendor : VendorClient session}.

Local Abbreviation Hass := (HomeAssistant session).

Lemma range_offset_length (x : nat) :
  x < UPDATE_INTERVAL -> List.length (range x 60 UPDATE_INTERVAL) = 12.
Proof.
  unfold UPDATE_INTERVAL. intro Hx.
  do 5 (destruct x as [|x]; [reflexivity|]). lia.
Qed.

(** X6: [setup_account] registers the three remote commands, in the order
    of [_SERVICE_MAP], for a read-write account and none for a read-only
    one; it schedules one alarm in both cases; when the construction of
    the account raises, it registers no command and schedules no alarm.
    It never writes to [hass]. *)
Theorem setup_account_registrations
    (cfg : account_config) (n : string) (hass : Hass) :
  final (setup_account cfg n hass) = hass /\
  match result (setup_account cfg n hass) with
  | Returned _ =>
      services_registered (events (setup_account cfg n hass))
      = (if read_only_flag cfg then []
         else ["light_flash"; "sound_horn"; "activate_air_conditioning"]) /\
      time_triggers (events (setup_account cfg n hass))
      = [time_pattern (utcnow hass)]
  | Raised _ =>
      services_registered (events (setup_account cfg n hass)) = [] /\
      time_triggers (events (setup_account cfg n hass)) = []
  end.
Proof.
  split; [apply setup_account_final|].
  destruct (__init__ (username cfg) (password cfg) (region cfg) n
                     (read_only_flag cfg)) as [acc|e] eqn:Hi.
  - rewrite (setup_account_returned cfg n hass acc Hi). cbn [result events].
    destruct (read_only_flag cfg); split; reflexivity.
  - rewrite (setup_account_raised cfg n hass e Hi). split; reflexivity.
Qed.

(** X7: the alarm scheduled by a successful [setup_account] fires at the
    second of the setup, in the twelve minutes of the hour that are
    congruent to the minute of the setup modulo [UPDATE_INTERVAL]. *)
Theorem setup_account_alarm_minutes
    (cfg : account_config) (n : string) (hass : Hass)
    (acc : BMWConnectedDriveAccount session) :
  result (setup_account cfg n hass) = Returned acc ->
  exists minutes,
    time_triggers (events (setup_account cfg n hass))
    = [(minutes, second (utcnow hass))] /\
    List.length minutes = 12 /\
    forall m, In m minutes <->
              m < 60 /\
              m mod UPDATE_INTERVAL = minute (utcnow hass) mod UPDATE_INTERVAL.
Proof.
  intro Hr. exists (fst (time_pattern (utcnow hass))).
  rewrite (setup_account_trigger cfg n hass acc Hr).
  split; [reflexivity|]. split.
  - unfold time_pattern. cbn [fst]. apply range_offset_length.
    apply Nat.mod_upper_bound. discriminate.
  - intro m. apply time_pattern_minutes.
Qed.

(** X8: two successful setups are handed the same alarm exactly when the
    minutes of their setups agree modulo [UPDATE_INTERVAL] and their
    seconds agree. *)
Theorem setups_share_alarm_iff
    (cfg1 cfg2 : account_config) (n1 n2 : string) (hass1 hass2 : Hass)
    (acc1 acc2 : BMWConnectedDriveAccount session) :
  result (setup_account cfg1 n1 hass1) = Returned acc1 ->
  result (setup_account cfg2 n2 hass2) = Returned acc2 ->
  (time_triggers (events (setup_account cfg1 n1 hass1))
   = time_triggers (events (setup_account cfg2 n2 hass2))
   <->
   minute (utcnow hass1) mod UPDATE_INTERVAL
   = minute (utcnow hass2) mod UPDATE_INTERVAL /\
   second (utcnow hass1) = second (utcnow hass2)).
Proof.
  intros H1 H2.
  rewrite (setup_account_trigger cfg1 n1 hass1 acc1 H1).
  rewrite (setup_account_trigger cfg2 n2 hass2 acc2 H2).
  rewrite <- time_pattern_eq_iff.
  split; [|now intros ->].
  intro H.
  exact (f_equal (fun l => hd (time_pattern (utcnow hass1)) l) H).
Qed.

(** X9: whatever the state and the call, [execute_service] invokes no
    remote-control method and leaves [hass] as it is; it returns normally
    only when the map of accounts is empty, raises [KeyError] when the
    domain has no map and [AttributeError] as soon as one account is
    configured. *)
Theorem execute_service_outcome (call : ServiceCall) (hass : Hass) :
  remote_calls (events (execute_service call hass)) = [] /\
  final (execute_service call hass) = hass /\
  result (execute_service call hass)
  = match data hass with
    | None => Raised KeyError
    | Some [] => Returned tt
    | Some (_ :: _) => Raised AttributeError
    end.
Proof.
  split; [apply execute_service_no_remote_call|].
  destruct (data hass) as [[|ka d]|] eqn:Hd.
  - now rewrite (execute_service_no_account call hass Hd).
  - rewrite (execute_service_configured call hass (ka :: d) Hd);
      [split; reflexivity | discriminate].
  - unfold execute_service, data_domain, bind, get. cbn. rewrite Hd.
    split; reflexivity.
Qed.

End MoreSetupAccountProperties.

Lemma setup_account_alarm_minutes_witness :
  exists minutes,
    time_triggers
      (events (setup_account (vendor := Scripted.V) Scripted.cfg_a "a"
                 (Scripted.hass_at Scripted.noon)))
    = [(minutes, 7)] /\
    List.length minutes = 12 /\
    forall m, In m minutes <-> m < 60 /\ m mod UPDATE_INTERVAL = 3.
Proof.
  exact (setup_account_alarm_minutes (vendor := Scripted.V)
           Scripted.cfg_a "a" (Scripted.hass_at Scripted.noon)
           (Scripted.account_of (Scripted.online ["WBA1234"]) [])
           eq_refl).
Defined.

Lemma setups_share_alarm_iff_witness :
  time_triggers
    (events (setup_account (vendor := Scripted.V) Scripted.cfg_a "a"
               (Scripted.hass_at Scripted.noon)))
  = time_triggers
      (events (setup_account (vendor := Scripted.V) Scripted.cfg_a "a"
                 (Scripted.hass_at Scripted.five_past_noon))).
Proof.
  exact (proj2 (setups_share_alarm_iff (vendor := Scripted.V)
                  Scripted.cfg_a Scripted.cfg_a "a" "a"
                  (Scripted.hass_at Scripted.noon)
                  (Scripted.hass_at Scripted.five_past_noon)
                  (Scripted.account_of (Scripted.online ["WBA1234"]) [])
                  (Scripted.account_of (Scripted.online ["WBA1234"]) [])
                  eq_refl eq_refl)
               (conj eq_refl eq_refl)).
Defined.

(** ** [_update_all] *)

Section UpdateAllProperties.

Context {session : Type} {vendor : VendorClient session}.

Local Abbreviation Hass := (HomeAssistant session).
Local Abbreviation Account := (BMWConnectedDriveAccount session).

Lemma dict_get_app_notin {V : Type} (done rest : dict V) (k : string) :
  ~ In k (dict_keys done) ->
  dict_get (done ++ rest) k = dict_get rest k.
Proof.
  induction done as [|[k0 v0] done IH]; intro Hn; [reflexivity|].
  cbn [app dict_get]. destruct (String.eqb k k0) eqn:Hk.
  - apply String.eqb_eq in Hk. subst k0. exfalso. apply Hn. now left.
  - apply IH. intro Hin. apply Hn. now right.
Qed.

Lemma dict_set_app_notin {V : Type} (done rest : dict V) (k : string)
    (v v' : V) :
  ~ In k (dict_keys done) ->
  dict_set (done ++ (k, v) :: rest) k v' = done ++ (k, v') :: rest.
Proof.
  induction done as [|[k0 v0] done IH]; intro Hn.
  - cbn. now rewrite String.eqb_refl.
  - cbn [app dict_set]. destruct (String.eqb k k0) eqn:Hk.
    + apply String.eqb_eq in Hk. subst k0. exfalso. apply Hn. now left.
    + f_equal. apply IH. intro Hin. apply Hn. now right.
Qed.

Lemma set_data_same (hass : Hass) (d : dict Account) :
  data hass = Some d -> set_data hass (Some d) = hass.
Proof. destruct hass. cbn. now intros ->. Qed.

(** The refresh of the account stored under a key of the map. *)
Lemma update_entry_at (done rest : dict Account) (k : string) (acc : Account)
    (hass : Hass) :
  data hass = Some (done ++ (k, acc) :: rest) ->
  ~ In k (dict_keys done) ->
  update_entry k hass =
  Ran (set_data hass (Some (done ++ refreshed (k, acc) :: rest)))
      (events (update acc)) (result (update acc)).
Proof.
  intros Hd Hn. unfold update_entry. rewrite Hd.
  rewrite (dict_get_app_notin done ((k, acc) :: rest) k Hn).
  cbn [dict_get]. rewrite String.eqb_refl.
  unfold refreshed. cbn [fst snd].
  destruct (update acc) as [acc' t r]. cbn [final events result].
  now rewrite (dict_set_app_notin done rest k acc acc' Hn).
Qed.

Lemma NoDup_keys_step (done rest : dict Account) (k : string) (acc : Account) :
  NoDup (dict_keys (done ++ (k, acc) :: rest)) ->
  ~ In k (dict_keys done) /\
  forall acc', NoDup (dict_keys ((done ++ [(k, acc')]) ++ rest)).
Proof.
  unfold dict_keys. intro Hnd. split.
  - rewrite map_app in Hnd. cbn [map fst] in Hnd.
    apply NoDup_remove_2 in Hnd. intro Hin. apply Hnd.
    apply in_or_app. now left.
  - intro acc'. rewrite <- app_assoc. cbn [app].
    rewrite map_app in *. exact Hnd.
Qed.

(** The loop over the keys when every [update] returns. *)
Lemma update_all_from (todo done : dict Account) (hass : Hass) :
  NoDup (dict_keys (done ++ todo)) ->
  data hass = Some (done ++ todo) ->
  Forall (fun kv => result (update (snd kv)) = Returned tt) todo ->
  for_each (dict_keys todo) update_entry hass =
  Ran (set_data hass (Some (done ++ map refreshed todo)))
      (flat_map (fun kv => events (update (snd kv))) todo)
      (Returned tt).
Proof.
  revert done hass.
  induction todo as [|[k acc] todo IH]; intros done hass Hnd Hd Hall.
  - cbn [map dict_keys for_each flat_map]. rewrite app_nil_r in *.
    unfold ret. f_equal. symmetry. now apply set_data_same.
  - destruct (NoDup_keys_step done todo k acc Hnd) as [Hn Hnd'].
    inversion Hall as [|kv l Hacc Hrest]; subst. cbn [snd] in Hacc.
    cbn [dict_keys map fst for_each].
    pose proof (update_entry_at done todo k acc hass Hd Hn) as Hstep.
    rewrite Hacc in Hstep.
    rewrite (events_bind _ _ _ _ _ _ Hstep).
    change (map fst todo) with (dict_keys todo).
    rewrite (IH (done ++ [refreshed (k, acc)])
                (set_data hass (Some (done ++ refreshed (k, acc) :: todo)))).
    + cbn [final events result map flat_map snd].
      rewrite <- app_assoc. reflexivity.
    + apply Hnd'.
    + cbn. now rewrite <- app_assoc.
    + exact Hrest.
Qed.

(** The loop over the keys stops at the first [update] that raises. *)
Lemma update_all_from_raise (pre done post : dict Account) (k : string)
    (acc : Account) (e : exc_class) (hass : Hass) :
  NoDup (dict_keys (done ++ pre ++ (k, acc) :: post)) ->
  data hass = Some (done ++ pre ++ (k, acc) :: post) ->
  Forall (fun kv => result (update (snd kv)) = Returned tt) pre ->
  result (update acc) = Raised e ->
  for_each (dict_keys (pre ++ (k, acc) :: post)) update_entry hass =
  Ran (set_data hass
         (Some (done ++ map refreshed pre ++ refreshed (k, acc) :: post)))
      (flat_map (fun kv => events (update (snd kv))) pre
       ++ events (update acc))
      (Raised e).
Proof.
  revert done hass.
  induction pre as [|[k0 acc0] pre IH]; intros done hass Hnd Hd Hall He.
  - cbn [app map flat_map dict_keys fst for_each] in *.
    destruct (NoDup_keys_step done post k acc Hnd) as [Hn _].
    pose proof (update_entry_at done post k acc hass Hd Hn) as Hstep.
    rewrite He in Hstep.
    now rewrite (bind_raised _ _ _ _ _ _ Hstep).
  - cbn [app] in Hnd, Hd.
    destruct (NoDup_keys_step done (pre ++ (k, acc) :: post) k0 acc0 Hnd)
      as [Hn Hnd'].
    inversion Hall as [|kv l Hacc Hrest]; subst. cbn [snd] in Hacc.
    cbn [app dict_keys map fst for_each].
    pose proof (update_entry_at done (pre ++ (k, acc) :: post) k0 acc0 hass
                                Hd Hn) as Hstep.
    rewrite Hacc in Hstep.
    rewrite (events_bind _ _ _ _ _ _ Hstep).
    change (map fst (pre ++ (k, acc) :: post))
      with (dict_keys (pre ++ (k, acc) :: post)).
    rewrite (IH (done ++ [refreshed (k0, acc0)])
                (set_data hass
                   (Some (done ++ refreshed (k0, acc0)
                               :: pre ++ (k, acc) :: post)))).
    + cbn [final events result map flat_map snd app].
      rewrite <- !app_assoc. reflexivity.
    + apply Hnd'.
    + cbn. now rewrite <- app_assoc.
    + exact Hrest.
    + exact He.
Qed.

Lemma update_all_returns (d : dict Account) (hass : Hass) :
  NoDup (dict_keys d) ->
  data hass = Some d ->
  Forall (fun kv => result (update (snd kv)) = Returned tt) d ->
  result (_update_all hass) = Returned tt /\
  events (_update_all hass)
  = flat_map (fun kv => events (update (snd kv))) d.
Proof.
  intros Hnd Hd Hall. unfold _update_all.
  assert (Hdd : data_domain hass = Ran hass [] (Returned d)).
  { unfold data_domain, bind, get. now rewrite Hd. }
  rewrite (events_bind _ _ _ _ _ _ Hdd).
  rewrite (update_all_from d [] hass Hnd Hd Hall).
  split; reflexivity.
Qed.

(** X10: when the [update] of every account returns, [_update_all]
    returns after refreshing every account once, in the insertion order of
    the map; the map keeps its keys and their order. *)
Theorem update_all_refreshes_every_account (d : dict Account) (hass : Hass) :
  NoDup (dict_keys d) ->
  data hass = Some d ->
  Forall (fun kv => result (update (snd kv)) = Returned tt) d ->
  result (_update_all hass) = Returned tt /\
  events (_update_all hass)
  = flat_map (fun kv => events (update (snd kv))) d /\
  data (final (_update_all hass)) = Some (map refreshed d) /\
  dict_keys (map refreshed d) = dict_keys d.
Proof.
  intros Hnd Hd Hall. unfold _update_all.
  assert (Hdd : data_domain hass = Ran hass [] (Returned d)).
  { unfold data_domain, bind, get. now rewrite Hd. }
  rewrite (events_bind _ _ _ _ _ _ Hdd).
  rewrite (update_all_from d [] hass Hnd Hd Hall).
  repeat split.
  unfold dict_keys. rewrite map_map. reflexivity.
Qed.

(** X11: [_update_all] has no isolation between accounts: when the
    [update] of an account raises, the exception propagates, the accounts
    before it in the map have been refreshed and those after it are left
    as they were. *)
Theorem update_all_stops_at_first_raise
    (pre post : dict Account) (k : string) (acc : Account) (e : exc_class)
    (hass : Hass) :
  NoDup (dict_keys (pre ++ (k, acc) :: post)) ->
  data hass = Some (pre ++ (k, acc) :: post) ->
  Forall (fun kv => result (update (snd kv)) = Returned tt) pre ->
  result (update acc) = Raised e ->
  result (_update_all hass) = Raised e /\
  events (_update_all hass)
  = flat_map (fun kv => events (update (snd kv))) pre
    ++ events (update acc) /\
  data (final (_update_all hass))
  = Some (map refreshed pre ++ refreshed (k, acc) :: post).
Proof.
  intros Hnd Hd Hall He. unfold _update_all.
  assert (Hdd : data_domain hass
                = Ran hass [] (Returned (pre ++ (k, acc) :: post))).
  { unfold data_domain, bind, get. now rewrite Hd. }
  rewrite (events_bind _ _ _ _ _ _ Hdd).
  rewrite (update_all_from_raise pre [] post k acc e hass Hnd Hd Hall He).
  repeat split.
Qed.

(** X12: transport errors never abort [_update_all]: when the vendor
    refresh of every account raises an [OSError], it returns normally,
    no listener is invoked, and one portal error is logged per account. *)
Theorem update_all_survives_transport_errors (d : dict Account) (hass : Hass) :
  NoDup (dict_keys d) ->
  data hass = Some d ->
  Forall (fun kv => exists e,
              snd (update_vehicle_states (account (snd kv))) = Raised e /\
              issubclass e OSError = true) d ->
  result (_update_all hass) = Returned tt /\
  listeners_invoked (events (_update_all hass)) = [] /\
  List.length (errors_logged (events (_update_all hass))) = List.length d.
Proof.
  intros Hnd Hd Hio.
  assert (Hone : forall kv : string * Account,
             (exists e,
                 snd (update_vehicle_states (account (snd kv))) = Raised e /\
                 issubclass e OSError = true) ->
             result (update (snd kv)) = Returned tt /\
             listeners_invoked (events (update (snd kv))) = [] /\
             List.length (errors_logged (events (update (snd kv)))) = 1).
  { intros kv (e & Hv & He).
    destruct (update_vehicle_states (account (snd kv))) as [s' r] eqn:Hu.
    cbn [snd] in Hv. subst r.
    rewrite (update_refresh_raised (snd kv) s' e Hu), He.
    repeat split. }
  assert (Hall : Forall (fun kv => result (update (snd kv)) = Returned tt) d).
  { eapply Forall_impl; [|exact Hio]. intros kv H. now apply Hone. }
  destruct (update_all_returns d hass Hnd Hd Hall)
    as (Hr & Hev).
  rewrite Hr, Hev. split; [reflexivity|].
  clear Hnd Hd Hall Hr Hev.
  induction Hio as [|kv d Hkv _ IH]; [split; reflexivity|].
  destruct (Hone kv Hkv) as (_ & Hl & He). destruct IH as [IHl IHe].
  cbn [flat_map]. rewrite listeners_invoked_app, Hl, IHl.
  split; [reflexivity|].
  unfold errors_logged in *. rewrite flat_map_app, length_app, He, IHe.
  reflexivity.
Qed.

End UpdateAllProperties.

Lemma NoDup_two_ok : NoDup (dict_keys Fleet.two_ok).
Proof.
  repeat constructor; cbn; intuition discriminate.
Defined.

Lemma NoDup_with_bad : NoDup (dict_keys Fleet.with_bad).
Proof.
  repeat constructor; cbn; intuition discriminate.
Defined.

Lemma NoDup_all_offline : NoDup (dict_keys Fleet.all_offline).
Proof.
  repeat constructor; cbn; intuition discriminate.
Defined.

Lemma update_all_refreshes_every_account_witness :
  result (_update_all (vendor := Scripted.V)
            (Scripted.hass_with (Some Fleet.two_ok))) = Returned tt /\
  events (_update_all (vendor := Scripted.V)
            (Scripted.hass_with (Some Fleet.two_ok)))
  = flat_map (fun kv => events (update (vendor := Scripted.V) (snd kv)))
             Fleet.two_ok /\
  data (final (_update_all (vendor := Scripted.V)
                 (Scripted.hass_with (Some Fleet.two_ok))))
  = Some (map (refreshed (vendor := Scripted.V)) Fleet.two_ok) /\
  dict_keys (map (refreshed (vendor := Scripted.V)) Fleet.two_ok)
  = dict_keys Fleet.two_ok.
Proof.
  apply (update_all_refreshes_every_account (vendor := Scripted.V)
           Fleet.two_ok (Scripted.hass_with (Some Fleet.two_ok))
           NoDup_two_ok eq_refl).
  repeat constructor.
Defined.

Lemma update_all_stops_at_first_raise_witness :
  result (_update_all (vendor := Scripted.V)
            (Scripted.hass_with (Some Fleet.with_bad))) = Raised ValueError /\
  events (_update_all (vendor := Scripted.V)
            (Scripted.hass_with (Some Fleet.with_bad)))
  = flat_map (fun kv => events (update (vendor := Scripted.V) (snd kv)))
             [("entry-a", Fleet.acc_a)]
    ++ events (update (vendor := Scripted.V) Fleet.acc_bad) /\
  data (final (_update_all (vendor := Scripted.V)
                 (Scripted.hass_with (Some Fleet.with_bad))))
  = Some (map (refreshed (vendor := Scripted.V)) [("entry-a", Fleet.acc_a)]
          ++ refreshed (vendor := Scripted.V) ("entry-x", Fleet.acc_bad)
          :: [("entry-b", Fleet.acc_b)]).
Proof.
  apply (update_all_stops_at_first_raise (vendor := Scripted.V)
           [("entry-a", Fleet.acc_a)] [("entry-b", Fleet.acc_b)]
           "entry-x" Fleet.acc_bad ValueError
           (Scripted.hass_with (Some Fleet.with_bad))
           NoDup_with_bad eq_refl).
  - repeat constructor.
  - reflexivity.
Defined.

Lemma update_all_survives_transport_errors_witness :
  result (_update_all (vendor := Scripted.V)
            (Scripted.hass_with (Some Fleet.all_offline))) = Returned tt /\
  listeners_invoked
    (events (_update_all (vendor := Scripted.V)
               (Scripted.hass_with (Some Fleet.all_offline)))) = [] /\
  List.length
    (errors_logged
       (events (_update_all (vendor := Scripted.V)
                  (Scripted.hass_with (Some Fleet.all_offline))))) = 2.
Proof.
  apply (update_all_survives_transport_errors (vendor := Scripted.V)
           Fleet.all_offline (Scripted.hass_with (Some Fleet.all_offline))
           NoDup_all_offline eq_refl).
  repeat constructor.
  - exists ConnectionError. split; reflexivity.
  - exists TimeoutError. split; reflexivity.
Defined.

(** ** [async_setup_entry] *)

Section MoreSetupProperties.

Context {session : Type} {vendor : VendorClient session}.

Local Abbreviation Hass := (HomeAssistant session).
Local Abbreviation Account := (BMWConnectedDriveAccount session).

(** A property of traces that holds of the empty trace and of the
    concatenation of two traces that have it holds of every sequence of
    steps that have it. *)
Lemma bind_events {S A B} (P : list event -> Prop) (m : Eff S A)
    (k : A -> Eff S B) (s : S) :
  (forall t u, P t -> P u -> P (t ++ u)) ->
  P (events (m s)) ->
  (forall a s1, P (events (k a s1))) ->
  P (events (bind m k s)).
Proof.
  intros Happ Hm Hk. unfold bind.
  destruct (m s) as [s1 t1 [a|e]]; cbn [events] in *; [|exact Hm].
  specialize (Hk a s1). destruct (k a s1) as [s2 t2 r]. now apply Happ.
Qed.

Lemma try_except_events {S A} (P : list event -> Prop) (m : Eff S A)
    (handler : exc_class -> option (Eff S A)) (s : S) :
  (forall t u, P t -> P u -> P (t ++ u)) ->
  P (events (m s)) ->
  (forall e h s1, handler e = Some h -> P (events (h s1))) ->
  P (events (try_except m handler s)).
Proof.
  intros Happ Hm Hh. unfold try_except.
  destruct (m s) as [s1 t1 [a|e]]; cbn [events] in *; [exact Hm|].
  destruct (handler e) as [h|] eqn:He; [|exact Hm].
  specialize (Hh e h s1 He). destruct (h s1) as [s2 t2 r]. now apply Happ.
Qed.

Lemma for_each_events {S A} (P : list event -> Prop) (xs : list A)
    (body : A -> Eff S unit) :
  (forall t u, P t -> P u -> P (t ++ u)) ->
  P [] ->
  (forall x s, P (events (body x s))) ->
  forall s, P (events (for_each xs body s)).
Proof.
  intros Happ Hnil Hbody. induction xs as [|x xs IH]; intro s; [exact Hnil|].
  cbn [for_each]. apply bind_events; [exact Happ | apply Hbody |].
  intros _ s1. apply IH.
Qed.

Lemma update_events (self : Account) :
  Forall account_event (events (update self)).
Proof.
  assert (Happ : forall t u : list event,
             Forall account_event t -> Forall account_event u ->
             Forall account_event (t ++ u)).
  { intros t u Ht Hu. apply Forall_app. now split. }
  unfold update.
  apply bind_events; [exact Happ | constructor |]. intros self0 s1.
  apply bind_events; [exact Happ | repeat constructor |]. intros _ s2.
  apply try_except_events; [exact Happ | |].
  - apply bind_events; [exact Happ | |].
    + unfold call_update_vehicle_states.
      destruct (update_vehicle_states (account s2)); constructor.
    + intros _ s3. apply bind_events; [exact Happ | constructor |].
      intros self1 s4. apply for_each_events; [exact Happ | constructor |].
      intros l s5. unfold call_listener.
      apply bind_events; [exact Happ | repeat constructor |].
      intros _ s6. destruct (listener_outcome l); constructor.
  - intros e h s3 Hh. destruct (issubclass e OSError); [|discriminate].
    injection Hh as <-.
    apply bind_events; [exact Happ | repeat constructor |].
    intros _ s4. repeat constructor.
Qed.

(** A trace of account events shows nothing else. *)
Lemma account_events_projections (t : list event) :
  Forall account_event t ->
  services_registered t = [] /\
  services_removed t = [] /\
  time_triggers t = [] /\
  platforms_forwarded t = [] /\
  platforms_loaded t = [] /\
  platform_unloads t = [] /\
  remote_calls t = [].
Proof.
  intro H. induction H as [|ev t Hev _ IH]; [repeat split|].
  destruct IH as (I1 & I2 & I3 & I4 & I5 & I6 & I7).
  destruct ev; try contradiction; cbn; repeat split; assumption.
Qed.

(** X13: [update] touches nothing of the host but the logger and its own
    listeners: it registers or removes no command, schedules no alarm,
    forwards, loads or unloads no platform, and invokes no remote-control
    method. *)
Theorem update_only_logs_and_notifies (self : Account) :
  Forall account_event (events (update self)) /\
  services_registered (events (update self)) = [] /\
  services_removed (events (update self)) = [] /\
  time_triggers (events (update self)) = [] /\
  platforms_forwarded (events (update self)) = [] /\
  platforms_loaded (events (update self)) = [] /\
  platform_unloads (events (update self)) = [] /\
  remote_calls (events (update self)) = [].
Proof.
  split; [apply update_events|].
  apply account_events_projections, update_events.
Qed.

(** The refresh of all accounts causes account events only. *)
Lemma update_all_events (hass : Hass) :
  Forall account_event (events (_update_all hass)).
Proof.
  assert (Happ : forall t u : list event,
             Forall account_event t -> Forall account_event u ->
             Forall account_event (t ++ u)).
  { intros t u Ht Hu. apply Forall_app. now split. }
  unfold _update_all. apply bind_events; [exact Happ | |].
  - unfold data_domain, bind, get. cbn.
    destruct (data hass); constructor.
  - intros d s1. apply for_each_events; [exact Happ | constructor |].
    intros k s2. unfold update_entry.
    destruct (data s2) as [d2|]; [|constructor].
    destruct (dict_get d2 k) as [acc|]; [|constructor].
    pose proof (update_events acc) as Hu.
    destruct (update acc) as [acc' t r]. exact Hu.
Qed.

(** The statements after the [try] block, step by step. *)
Lemma finish_setup_eq (entry : ConfigEntry) (acc : Account) (hass : Hass)
    (d : dict Account) :
  data hass = Some d ->
  finish_setup entry acc hass =
  let u := _update_all
             (set_data hass (Some (dict_set d (entry_id entry) acc))) in
  match result u with
  | Returned _ =>
      Ran (final u)
          (ServiceRegistered DOMAIN SERVICE_UPDATE_STATE
           :: events u
           ++ map (ForwardEntrySetup (entry_id entry)) FORWARDED
           ++ [LoadPlatform "notify"])
          (Returned true)
  | Raised e =>
      Ran (final u)
          (ServiceRegistered DOMAIN SERVICE_UPDATE_STATE :: events u)
          (Raised e)
  end.
Proof.
  intro Hd. cbv zeta. unfold finish_setup.
  assert (H1 : (d0 <- data_domain ;;
                hass0 <- get ;;
                put (set_data hass0 (Some (dict_set d0 (entry_id entry) acc))))
                 hass
               = Ran (set_data hass (Some (dict_set d (entry_id entry) acc)))
                     [] (Returned tt)).
  { unfold data_domain, bind, get, put. cbn. rewrite Hd. reflexivity. }
  rewrite (events_bind _ _ _ _ _ _ H1).
  set (hass1 := set_data hass (Some (dict_set d (entry_id entry) acc))).
  assert (H2 : emit (ServiceRegistered DOMAIN SERVICE_UPDATE_STATE) hass1
               = Ran hass1 [ServiceRegistered DOMAIN SERVICE_UPDATE_STATE]
                     (Returned tt)) by reflexivity.
  rewrite (events_bind _ _ _ _ _ _ H2).
  destruct (_update_all hass1) as [h2 t [[]|e]] eqn:Hu; cbn [result final events].
  - rewrite (events_bind _ _ _ _ _ _ Hu). reflexivity.
  - rewrite (bind_raised _ _ _ _ _ _ Hu). reflexivity.
Qed.

(** [async_setup_entry] in terms of its probe. *)
Lemma async_setup_entry_eq (entry : ConfigEntry) (hass : Hass) :
  async_setup_entry entry hass =
  let probe := setup_and_refresh (entry_data entry) (setdefault_domain hass) in
  match result probe with
  | Returned acc =>
      let f := finish_setup entry acc (setdefault_domain hass) in
      Ran (final f) (events probe ++ events f) (result f)
  | Raised e =>
      Ran (setdefault_domain hass) (events probe)
          (Raised (if issubclass e Exception then ConfigEntryNotReady else e))
  end.
Proof.
  cbv zeta.
  pose proof (ran_eta (setup_and_refresh (entry_data entry)
                                         (setdefault_domain hass))) as Hp.
  rewrite setup_and_refresh_final in Hp.
  unfold async_setup_entry.
  assert (H0 : (hass0 <- get ;; put (setdefault_domain hass0)) hass =
               Ran (setdefault_domain hass) [] (Returned tt)) by reflexivity.
  rewrite (events_bind _ _ _ _ _ _ H0).
  destruct (result (setup_and_refresh (entry_data entry)
                                      (setdefault_domain hass)))
    as [acc|e] eqn:Hr.
  - erewrite events_bind;
      [| erewrite try_except_returned; [reflexivity | exact Hp]].
    reflexivity.
  - destruct (issubclass e Exception) eqn:He.
    + erewrite (bind_raised _ _ (setdefault_domain hass)); [reflexivity|].
      erewrite try_except_handled; [| exact Hp | rewrite He; reflexivity].
      cbn. now rewrite app_nil_r.
    + erewrite (bind_raised _ _ (setdefault_domain hass)); [reflexivity|].
      erewrite try_except_passed; [| exact Hp | rewrite He; reflexivity].
      reflexivity.
Qed.

Lemma setdefault_domain_data (hass : Hass) :
  exists d, data (setdefault_domain hass) = Some d.
Proof.
  unfold setdefault_domain. destruct (data hass) as [d|] eqn:Hd.
  - now exists d.
  - now exists [].
Qed.

Lemma no_platform_event_app (t u : list event) :
  no_platform_event t -> no_platform_event u -> no_platform_event (t ++ u).
Proof.
  unfold no_platform_event, platforms_forwarded, platforms_loaded.
  intros [Ht1 Ht2] [Hu1 Hu2]. rewrite !flat_map_app.
  now rewrite Ht1, Ht2, Hu1, Hu2.
Qed.

Lemma account_events_no_platform (t : list event) :
  Forall account_event t -> no_platform_event t.
Proof.
  intro H. destruct (account_events_projections t H)
    as (_ & _ & _ & Hf & Hl & _).
  now split.
Qed.

(** The probe causes no platform event. *)
Lemma setup_and_refresh_platforms (cfg : account_config) (hass : Hass) :
  no_platform_event (events (setup_and_refresh cfg hass)).
Proof.
  unfold setup_and_refresh.
  apply bind_events; [exact no_platform_event_app | |].
  - destruct (__init__ (username cfg) (password cfg) (region cfg)
                       (username cfg) (read_only_flag cfg))
      as [acc|e] eqn:Hi.
    + rewrite (setup_account_returned cfg (username cfg) hass acc Hi).
      cbn [events]. destruct (read_only_flag cfg); split; reflexivity.
    + rewrite (setup_account_raised cfg (username cfg) hass e Hi).
      split; reflexivity.
  - intros acc s1. apply bind_events; [exact no_platform_event_app | |].
    + rewrite run_on_update. cbn [events].
      apply account_events_no_platform, update_events.
    + intros r s2. split; reflexivity.
Qed.

Lemma update_all_keeps (id : string) (hass : Hass) :
  entry_account hass id <> None ->
  entry_account (final (_update_all hass)) id <> None.
Proof.
  intro H. unfold _update_all.
  apply (bind_keeps (fun h => entry_account h id <> None)).
  - unfold data_domain, bind, get. cbn. destruct (data hass); exact H.
  - intros d s1 H1.
    apply (for_each_keeps (fun h => entry_account h id <> None));
      [|exact H1].
    intros k s2 H2. now apply update_entry_keeps.
Qed.

Lemma finish_setup_final (entry : ConfigEntry) (acc : Account) (hass : Hass)
    (d : dict Account) :
  data hass = Some d ->
  final (finish_setup entry acc hass)
  = final (_update_all
             (set_data hass (Some (dict_set d (entry_id entry) acc)))).
Proof.
  intro Hd. rewrite (finish_setup_eq entry acc hass d Hd). cbv zeta.
  destruct (result (_update_all _)); reflexivity.
Qed.

(** X14: [async_setup_entry] starts the platforms exactly when it
    returns: it then returns true and has forwarded the entry to
    binary_sensor, device_tracker, lock and sensor, in this order, and
    loaded notify through discovery; when it raises, no platform has been
    forwarded or loaded. *)
Theorem async_setup_entry_platforms (entry : ConfigEntry) (hass : Hass) :
  match result (async_setup_entry entry hass) with
  | Returned b =>
      b = true /\
      platforms_forwarded (events (async_setup_entry entry hass))
      = FORWARDED /\
      platforms_loaded (events (async_setup_entry entry hass)) = ["notify"]
  | Raised _ =>
      platforms_forwarded (events (async_setup_entry entry hass)) = [] /\
      platforms_loaded (events (async_setup_entry entry hass)) = []
  end.
Proof.
  rewrite async_setup_entry_eq. cbv zeta.
  pose proof (setup_and_refresh_platforms (entry_data entry)
                                          (setdefault_domain hass)) as Hp.
  destruct (result (setup_and_refresh (entry_data entry)
                                      (setdefault_domain hass))) as [acc|e].
  - destruct (setdefault_domain_data hass) as [d Hd].
    rewrite (finish_setup_eq entry acc (setdefault_domain hass) d Hd).
    cbv zeta.
    pose proof (account_events_no_platform _
                  (update_all_events
                     (set_data (setdefault_domain hass)
                        (Some (dict_set d (entry_id entry) acc))))) as Hu.
    destruct Hp as [Hp1 Hp2]. destruct Hu as [Hu1 Hu2].
    destruct (result (_update_all _)) as [[]|e]; cbn [result events].
    + split; [reflexivity|].
      unfold platforms_forwarded, platforms_loaded in *.
      rewrite !flat_map_app. cbn [flat_map app].
      rewrite !flat_map_app, Hp1, Hp2, Hu1, Hu2. split; reflexivity.
    + unfold platforms_forwarded, platforms_loaded in *.
      rewrite !flat_map_app. cbn [flat_map app].
      rewrite Hp1, Hp2, Hu1, Hu2. split; reflexivity.
  - exact Hp.
Qed.

(** X15: past its [try] block [async_setup_entry] is not atomic: once the
    construction and the initial [update] have returned, the account is in
    the map under the entry id when the call ends, even when the call
    raises because the refresh of all accounts raised. *)
Theorem async_setup_entry_inserts_once_probed
    (entry : ConfigEntry) (hass : Hass) (acc : Account) :
  built (entry_data entry) = Returned acc ->
  result (update acc) = Returned tt ->
  entry_account (final (async_setup_entry entry hass)) (entry_id entry)
  <> None.
Proof.
  intros Hb Hu.
  apply (async_setup_entry_probe_returned entry hass (final (update acc))).
  now rewrite setup_and_refresh_result, Hb, Hu.
Qed.

(** X16: [async_setup_entry] never drops an account: an entry id that has
    an account in the map before the call has one after it, whether the
    call returns or raises. *)
Theorem async_setup_entry_keeps_other_accounts
    (entry : ConfigEntry) (hass : Hass) (id : string) :
  entry_account hass id <> None ->
  entry_account (final (async_setup_entry entry hass)) id <> None.
Proof.
  intro H. rewrite async_setup_entry_eq. cbv zeta.
  rewrite <- (entry_account_setdefault hass id) in H.
  destruct (result (setup_and_refresh (entry_data entry)
                                      (setdefault_domain hass))) as [acc|e];
    cbn [final]; [|exact H].
  destruct (setdefault_domain_data hass) as [d Hd].
  rewrite (finish_setup_final entry acc (setdefault_domain hass) d Hd).
  apply update_all_keeps.
  unfold entry_account in *. rewrite Hd in H. cbn [set_data data].
  destruct (String.eqb id (entry_id entry)) eqn:Hid.
  - apply String.eqb_eq in Hid. subst id. rewrite dict_get_set_same.
    discriminate.
  - now rewrite (dict_get_set_other d (entry_id entry) id acc Hid).
Qed.

End MoreSetupProperties.

Lemma async_setup_entry_inserts_once_probed_witness :
  result (async_setup_entry (vendor := flaky_vendor) Scripted.entry_a
            (Scripted.hass_with None)) = Raised ValueError /\
  entry_account
    (final (async_setup_entry (vendor := flaky_vendor) Scripted.entry_a
              (Scripted.hass_with None))) (entry_id Scripted.entry_a)
  <> None.
Proof.
  split; [reflexivity|].
  exact (async_setup_entry_inserts_once_probed (vendor := flaky_vendor)
           Scripted.entry_a (Scripted.hass_with None)
           (Scripted.account_of (Scripted.online ["WBA1234"]) [])
           eq_refl eq_refl).
Defined.

Lemma async_setup_entry_keeps_other_accounts_witness :
  entry_account
    (final (async_setup_entry (vendor := Scripted.V_login_fails ConnectionError)
              {| entry_id := "entry-z"; entry_data := Scripted.cfg_c |}
              (Scripted.hass_with (Some Fleet.two_ok)))) "entry-b"
  <> None /\
  entry_account
    (final (async_setup_entry (vendor := Scripted.V)
              {| entry_id := "entry-z"; entry_data := Scripted.cfg_c |}
              (Scripted.hass_with (Some Fleet.two_ok)))) "entry-b"
  <> None.
Proof.
  split.
  - apply (async_setup_entry_keeps_other_accounts
             (vendor := Scripted.V_login_fails ConnectionError)).
    discriminate.
  - apply (async_setup_entry_keeps_other_accounts (vendor := Scripted.V)).
    discriminate.
Defined.


(** ** [async_unload_entry] *)

Section MoreUnloadProperties.

Context {session : Type} {host : HostFramework}.

Local Abbreviation Hass := (HomeAssistant session).
Local Abbreviation Account := (BMWConnectedDriveAccount session).

Lemma pop_entry_missing (id : string) (hass : Hass) (d : dict Account) :
  data hass = Some d ->
  dict_get d id = None ->
  pop_entry id hass = Ran hass [] (Raised KeyError).
Proof.
  intros Hd Hacc. unfold pop_entry.
  rewrite (events_bind _ _ _ _ _ _ (data_domain_eq hass d Hd)).
  rewrite Hacc. reflexivity.
Qed.

(** The unload of an entry that has no account in the map. *)
Lemma async_unload_entry_missing_eq (entry : ConfigEntry) (hass : Hass)
    (d : dict Account) :
  data hass = Some d ->
  dict_get d (entry_id entry) = None ->
  async_unload_entry entry hass =
  let unload_ok :=
    forallb (async_forward_entry_unload (entry_id entry)) BMW_COMPONENTS in
  let last := Nat.eqb (len d) 1 in
  let unload_services :=
    if last then forallb (services_remove DOMAIN) COMMANDS else true in
  Ran hass
      (map (ForwardEntryUnload (entry_id entry)) BMW_COMPONENTS
       ++ (if last then map (ServiceRemoved DOMAIN) COMMANDS else []))
      (if unload_ok && unload_services
       then Raised KeyError else Returned unload_ok).
Proof.
  intros Hd Hacc. cbv zeta.
  unfold async_unload_entry.
  rewrite (events_bind _ _ _ _ _ _ (gather_answers _ _ _ hass)).
  rewrite all_forallb.
  set (unload_ok := forallb _ BMW_COMPONENTS).
  rewrite (events_bind _ _ _ _ _ _ (data_domain_eq hass d Hd)).
  assert (Htail : forall b : bool,
             ((if b then pop_entry (entry_id entry) else ret tt) ;;;
              ret unload_ok) hass =
             Ran hass [] (if b then Raised KeyError else Returned unload_ok)).
  { intros [|].
    - now rewrite (bind_raised _ _ _ _ _ _
                     (pop_entry_missing (entry_id entry) hass d Hd Hacc)).
    - reflexivity. }
  destruct (Nat.eqb (len d) 1).
  - cbv zeta.
    assert (Hrm : (removals <- gather COMMANDS
                     (fun service_ =>
                        emit (ServiceRemoved DOMAIN service_) ;;;
                        ret (services_remove DOMAIN service_)) ;;
                   ret (all removals)) hass =
                  Ran hass (map (ServiceRemoved DOMAIN) COMMANDS)
                      (Returned (forallb (services_remove DOMAIN) COMMANDS))).
    { rewrite (events_bind _ _ _ _ _ _ (gather_answers _ _ _ hass)).
      rewrite all_forallb. cbn [ret final events result].
      now rewrite app_nil_r. }
    rewrite (events_bind _ _ _ _ _ _ Hrm).
    unfold all. cbn [forallb]. rewrite andb_true_r.
    rewrite Htail. cbn [final events result app].
    now rewrite !app_nil_r.
  - assert (Hno : ret true hass = Ran hass [] (Returned true)) by reflexivity.
    rewrite (events_bind _ _ _ _ _ _ Hno).
    unfold all. cbn [forallb]. rewrite !andb_true_r.
    rewrite Htail. cbn [final events result app].
    now rewrite !app_nil_r.
Qed.

(** The unload when [hass.data] has no map for the domain. *)
Lemma async_unload_entry_no_domain (entry : ConfigEntry) (hass : Hass) :
  data hass = None ->
  async_unload_entry entry hass =
  Ran hass (map (ForwardEntryUnload (entry_id entry)) BMW_COMPONENTS)
      (Raised KeyError).
Proof.
  intro Hd. unfold async_unload_entry.
  rewrite (events_bind _ _ _ _ _ _ (gather_answers _ _ _ hass)).
  assert (Hdd : data_domain hass = Ran hass [] (Raised KeyError)).
  { unfold data_domain, bind, get. now rewrite Hd. }
  rewrite (bind_raised _ _ _ _ _ _ Hdd). cbn [final events result].
  now rewrite app_nil_r.
Qed.

(** X17: whatever the state and the answers of the host,
    [async_unload_entry] asks every platform of [BMW_COMPONENTS] to unload
    the entry, in order and without stopping at a failure; among them is
    notify, which [async_setup_entry] never forwards. *)
Theorem async_unload_entry_asks_every_platform
    (entry : ConfigEntry) (hass : Hass) :
  platform_unloads (events (async_unload_entry entry hass))
  = BMW_COMPONENTS /\
  In "notify" BMW_COMPONENTS /\ ~ In "notify" FORWARDED.
Proof.
  split.
  - destruct (data hass) as [d|] eqn:Hd.
    + destruct (dict_get d (entry_id entry)) as [acc|] eqn:Hacc.
      * rewrite (async_unload_entry_eq entry hass d acc Hd Hacc).
        cbv zeta. cbn [events].
        destruct (Nat.eqb (len d) 1); reflexivity.
      * rewrite (async_unload_entry_missing_eq entry hass d Hd Hacc).
        cbv zeta. cbn [events].
        destruct (Nat.eqb (len d) 1); reflexivity.
    + now rewrite (async_unload_entry_no_domain entry hass Hd).
  - split; [cbn; tauto|]. cbn. intuition discriminate.
Qed.

(** X18: the unload of an entry that has no account in the map never
    changes the map; it raises [KeyError] when every teardown step
    succeeded and returns the platform result otherwise; and it still
    deregisters the global commands when the map holds exactly one account,
    which is then another entry's. *)
Theorem async_unload_entry_unknown_entry
    (entry : ConfigEntry) (hass : Hass) (d : dict Account) :
  data hass = Some d ->
  dict_get d (entry_id entry) = None ->
  let platforms_ok :=
    forallb (async_forward_entry_unload (entry_id entry)) BMW_COMPONENTS in
  let commands_ok := forallb (services_remove DOMAIN) COMMANDS in
  let last := Nat.eqb (len d) 1 in
  final (async_unload_entry entry hass) = hass /\
  result (async_unload_entry entry hass)
  = (if platforms_ok && (if last then commands_ok else true)
     then Raised KeyError else Returned platforms_ok) /\
  services_removed (events (async_unload_entry entry hass))
  = (if last then COMMANDS else []).
Proof.
  intros Hd Hacc. cbv zeta.
  rewrite (async_unload_entry_missing_eq entry hass d Hd Hacc). cbv zeta.
  repeat split. cbn [events].
  destruct (Nat.eqb (len d) 1); reflexivity.
Qed.

Lemma dict_get_remove_other {V : Type} (d : dict V) (k k' : string) :
  String.eqb k' k = false ->
  dict_get (dict_remove d k) k' = dict_get d k'.
Proof.
  intro Hne. induction d as [|[k0 v0] d IH]; [reflexivity|].
  cbn [dict_remove]. destruct (String.eqb k k0) eqn:Hk.
  - apply String.eqb_eq in Hk. subst k0. cbn [dict_get]. now rewrite Hne.
  - cbn [dict_get]. destruct (String.eqb k' k0); [reflexivity | exact IH].
Qed.

(** X19: the unload of a loaded entry leaves the accounts of all other
    entries in the map as they are, whatever the outcome of the teardown
    steps. *)
Theorem async_unload_entry_keeps_other_accounts
    (entry : ConfigEntry) (hass : Hass) (d : dict Account) (acc : Account)
    (id : string) :
  data hass = Some d ->
  dict_get d (entry_id entry) = Some acc ->
  String.eqb id (entry_id entry) = false ->
  entry_account (final (async_unload_entry entry hass)) id
  = entry_account hass id.
Proof.
  intros Hd Hacc Hid.
  rewrite (async_unload_entry_eq entry hass d acc Hd Hacc). cbv zeta.
  cbn [final].
  destruct (_ && _); [|reflexivity].
  unfold entry_account. cbn [set_data data]. rewrite Hd.
  apply dict_get_remove_other. exact Hid.
Qed.

End MoreUnloadProperties.

Lemma async_unload_entry_unknown_entry_witness :
  final (async_unload_entry (host := Scripted.scripted_host true true)
           {| entry_id := "entry-z"; entry_data := Scripted.cfg_c |}
           Scripted.hass_one) = Scripted.hass_one /\
  result (async_unload_entry (host := Scripted.scripted_host true true)
            {| entry_id := "entry-z"; entry_data := Scripted.cfg_c |}
            Scripted.hass_one) = Raised KeyError /\
  services_removed
    (events (async_unload_entry (host := Scripted.scripted_host true true)
               {| entry_id := "entry-z"; entry_data := Scripted.cfg_c |}
               Scripted.hass_one)) = COMMANDS.
Proof.
  exact (async_unload_entry_unknown_entry
           (host := Scripted.scripted_host true true)
           {| entry_id := "entry-z"; entry_data := Scripted.cfg_c |}
           Scripted.hass_one [("entry-a", Scripted.acc_fresh)]
           eq_refl eq_refl).
Defined.

Lemma async_unload_entry_keeps_other_accounts_witness :
  entry_account
    (final (async_unload_entry (host := Scripted.scripted_host true true)
              Scripted.entry_a (Scripted.hass_with (Some Fleet.two_ok))))
    "entry-b"
  = Some Fleet.acc_b.
Proof.
  exact (async_unload_entry_keeps_other_accounts
           (host := Scripted.scripted_host true true)
           Scripted.entry_a (Scripted.hass_with (Some Fleet.two_ok))
           Fleet.two_ok Fleet.acc_a "entry-b" eq_refl eq_refl eq_refl).
Defined.

(** ** The config flow and [async_setup] *)

Section MoreConfigFlowProperties.

Context {session : Type} {vendor : VendorClient session}.

Local Abbreviation Hass := (HomeAssistant session).
Local Abbreviation Account := (BMWConnectedDriveAccount session).

Lemma setup_and_refresh_events (cfg : account_config) (hass : Hass)
    (acc : Account) :
  built cfg = Returned acc ->
  events (setup_and_refresh cfg hass)
  = events (setup_account cfg (username cfg) hass) ++ events (update acc).
Proof.
  intro Hi. unfold built in Hi. unfold setup_and_refresh.
  pose proof (setup_account_returned cfg (username cfg) hass acc Hi) as Hs.
  rewrite (events_bind _ _ _ _ _ _ Hs). rewrite Hs. cbn [events].
  f_equal. unfold bind. rewrite run_on_update.
  destruct (result (update acc)); cbn [ret events]; [now rewrite app_nil_r|].
  reflexivity.
Qed.

Lemma validate_input_events (ui : account_config) (hass : Hass) :
  events (validate_input ui hass) = events (setup_and_refresh ui hass).
Proof.
  destruct (result (setup_and_refresh ui hass)) as [acc|e] eqn:Hr.
  - now rewrite (validate_input_returned ui hass acc Hr).
  - now rewrite (validate_input_raised ui hass e Hr).
Qed.

(** X20: [validate_input] never writes to [hass]; it returns the user
    name as title when the construction and the refresh return, and
    otherwise raises [InvalidAuth] for every exception derived from
    [Exception], whatever its class and whether the construction or the
    refresh raised it. *)
Theorem validate_input_outcome (ui : account_config) (hass : Hass) :
  final (validate_input ui hass) = hass /\
  result (validate_input ui hass)
  = match built ui with
    | Raised e => Raised (as_invalid_auth e)
    | Returned acc =>
        match result (update acc) with
        | Returned _ => Returned (username ui)
        | Raised e => Raised (as_invalid_auth e)
        end
    end.
Proof.
  pose proof (setup_and_refresh_result ui hass) as Hres.
  destruct (result (setup_and_refresh ui hass)) as [acc'|e'] eqn:Hr.
  - rewrite (validate_input_returned ui hass acc' Hr).
    split; [reflexivity|]. cbn [result].
    destruct (built ui) as [acc|e]; [|discriminate].
    destruct (result (update acc)); [reflexivity | discriminate].
  - rewrite (validate_input_raised ui hass e' Hr).
    split; [reflexivity|]. cbn [result]. unfold as_invalid_auth.
    destruct (built ui) as [acc|e].
    + destruct (result (update acc)); [discriminate|].
      now injection Hres as <-.
    + now injection Hres as <-.
Qed.

(** X21: the probe of [validate_input] is not free of effects: once the
    account is constructed, the three remote commands are registered (for
    a read-write configuration) and an alarm is scheduled on the live
    [hass], whatever the refresh does afterwards and although no entry
    exists. *)
Theorem validate_input_registers
    (ui : account_config) (hass : Hass) (acc : Account) :
  built ui = Returned acc ->
  services_registered (events (validate_input ui hass))
  = (if read_only_flag ui then []
     else ["light_flash"; "sound_horn"; "activate_air_conditioning"]) /\
  time_triggers (events (validate_input ui hass))
  = [time_pattern (utcnow hass)].
Proof.
  intro Hi. rewrite validate_input_events.
  rewrite (setup_and_refresh_events ui hass acc Hi).
  destruct (account_events_projections _ (update_events acc))
    as (Hs & _ & Ht & _).
  unfold services_registered, time_triggers in *.
  rewrite !flat_map_app, Hs, Ht, !app_nil_r.
  unfold built in Hi.
  rewrite (setup_account_returned ui (username ui) hass acc Hi).
  cbn [events]. destruct (read_only_flag ui); split; reflexivity.
Qed.

(** X22: a submission whose identity [region-username] is already
    configured is aborted before any probe: [async_step_user] raises
    [AbortFlow] without a call to the vendor, a registration or a log
    record, and leaves [hass] as it is. *)
Theorem async_step_user_aborts_before_probe
    (ui : account_config) (hass : Hass) :
  existsb (String.eqb (region ui ++ "-" ++ username ui)%string)
          (configured_unique_ids hass) = true ->
  async_step_user (Some ui) hass = Ran hass [] (Raised AbortFlow).
Proof.
  intro Hid. unfold async_step_user.
  unfold bind at 1. cbn [get]. rewrite Hid. reflexivity.
Qed.

Lemma async_step_user_probe_returned (ui : account_config) (hass : Hass)
    (acc : Account) :
  existsb (String.eqb (region ui ++ "-" ++ username ui)%string)
          (configured_unique_ids hass) = false ->
  result (setup_and_refresh ui hass) = Returned acc ->
  async_step_user (Some ui) hass =
  Ran hass (events (setup_and_refresh ui hass))
      (Returned (CreateEntry (username ui) ui)).
Proof.
  intros Hid Hr.
  pose proof (validate_input_returned ui hass acc Hr) as Hv.
  unfold async_step_user.
  unfold bind at 1. cbn [get]. rewrite Hid.
  unfold bind at 1. cbn [ret].
  unfold bind at 1.
  erewrite try_except_returned;
    [| now rewrite (events_bind _ _ _ _ _ _ Hv)].
  cbn. now rewrite !app_nil_r.
Qed.

(** X23: when the construction and the refresh of the probe return, a
    submission with a new identity creates the entry, titled with the user
    name and holding the submitted data, and leaves [hass] as it is. *)
Theorem async_step_user_creates_entry
    (ui : account_config) (hass : Hass) (acc : Account) :
  existsb (String.eqb (region ui ++ "-" ++ username ui)%string)
          (configured_unique_ids hass) = false ->
  built ui = Returned acc ->
  result (update acc) = Returned tt ->
  result (async_step_user (Some ui) hass)
  = Returned (CreateEntry (username ui) ui) /\
  final (async_step_user (Some ui) hass) = hass.
Proof.
  intros Hid Hb Hu.
  assert (Hr : result (setup_and_refresh ui hass)
               = Returned (final (update acc))).
  { now rewrite setup_and_refresh_result, Hb, Hu. }
  rewrite (async_step_user_probe_returned ui hass _ Hid Hr).
  split; reflexivity.
Qed.

(** X24: a transport error of the refresh does not fail the validation:
    when the vendor refresh of the probe raises an [OSError], the
    submission creates the entry all the same. *)
Theorem async_step_user_accepts_on_transport_error
    (ui : account_config) (hass : Hass) (acc : Account) (s' : session)
    (e : exc_class) :
  existsb (String.eqb (region ui ++ "-" ++ username ui)%string)
          (configured_unique_ids hass) = false ->
  built ui = Returned acc ->
  update_vehicle_states (account acc) = (s', Raised e) ->
  issubclass e OSError = true ->
  result (async_step_user (Some ui) hass)
  = Returned (CreateEntry (username ui) ui).
Proof.
  intros Hid Hb Hv He.
  assert (Hr : result (setup_and_refresh ui hass)
               = Returned (final (update acc))).
  { rewrite setup_and_refresh_result, Hb.
    now rewrite (update_refresh_raised acc s' e Hv), He. }
  now rewrite (async_step_user_probe_returned ui hass _ Hid Hr).
Qed.

(** X25: every form [async_step_user] shows is the form of step [user];
    it carries no error when there is no input and the error
    [invalid_auth] otherwise: the errors [cannot_connect] and [unknown]
    are never shown. *)
Theorem async_step_user_form_errors
    (user_input : option account_config) (hass : Hass)
    (step : string) (errors : dict string) :
  result (async_step_user user_input hass) = Returned (ShowForm step errors) ->
  step = "user" /\
  ((user_input = None /\ errors = []) \/
   (user_input <> None /\ errors = [("base", "invalid_auth")])).
Proof.
  destruct user_input as [ui|]; cbn [async_step_user].
  2:{ intro H. injection H as <- <-. split; [reflexivity | now left]. }
  unfold bind at 1. cbn [get].
  destruct (existsb _ (configured_unique_ids hass)) eqn:Hid; [discriminate|].
  unfold bind at 1. cbn [ret].
  destruct (result (setup_and_refresh ui hass)) as [acc|e] eqn:Hr.
  - pose proof (validate_input_returned ui hass acc Hr) as Hv.
    unfold bind at 1.
    erewrite try_except_returned;
      [| now rewrite (events_bind _ _ _ _ _ _ Hv)].
    cbn. discriminate.
  - pose proof (validate_input_raised ui hass e Hr) as Hv.
    assert (Hb : (title <- validate_input ui ;;
                  ret (inl (B := dict string) (CreateEntry title ui))) hass =
                 Ran hass (events (setup_and_refresh ui hass))
                     (Raised (if issubclass e Exception
                              then InvalidAuth else e))).
    { now rewrite (bind_raised _ _ _ _ _ _ Hv). }
    unfold bind at 1.
    destruct (issubclass e Exception) eqn:He.
    + erewrite try_except_handled; [| exact Hb | reflexivity].
      cbn. intro H. injection H as <- <-.
      split; [reflexivity|]. right. split; [discriminate | reflexivity].
    + assert (Hnone : issubclass e CannotConnect = false /\
                      issubclass e InvalidAuth = false /\
                      issubclass e OSError = false).
      { destruct e; try discriminate He; repeat split. }
      destruct Hnone as (H1 & H2 & H3).
      erewrite try_except_passed;
        [| exact Hb | rewrite H1, H2, H3, He; reflexivity].
      discriminate.
Qed.

End MoreConfigFlowProperties.

Lemma create_import_tasks (cfgs : list account_config)
    (tasks : list import_task) :
  for_each cfgs async_create_import_task tasks =
  Ran (tasks ++ map (fun c => {| task_domain := DOMAIN;
                                 task_source := "import";
                                 task_data := c |}) cfgs)
      [] (Returned tt).
Proof.
  revert tasks. induction cfgs as [|c cfgs IH]; intro tasks.
  - cbn. now rewrite app_nil_r.
  - cbn [for_each map]. unfold bind at 1.
    unfold async_create_import_task at 1, bind, get, put.
    rewrite IH. cbn. now rewrite <- app_assoc.
Qed.

(** X26: [async_setup] never raises and always returns true; it creates
    one import flow per account of the domain's section, in the order of
    the section, each carrying the configuration of its account, and none
    when the configuration has no section for the domain. *)
Theorem async_setup_creates_import_flows
    (config : dict (dict account_config)) (tasks : list import_task) :
  result (async_setup config tasks) = Returned true /\
  final (async_setup config tasks)
  = tasks ++ match dict_get config DOMAIN with
             | Some accounts =>
                 map (fun kv => {| task_domain := DOMAIN;
                                   task_source := "import";
                                   task_data := snd kv |}) accounts
             | None => []
             end.
Proof.
  unfold async_setup.
  destruct (dict_get config DOMAIN) as [accounts|].
  - rewrite (events_bind _ _ _ _ _ _
               (create_import_tasks (map snd accounts) tasks)).
    cbn [ret final result]. rewrite map_map. split; reflexivity.
  - cbn. now rewrite app_nil_r.
Qed.

Lemma validate_input_registers_witness :
  result (validate_input (vendor := Scripted.V_refresh_fails KeyError)
            Scripted.cfg_a (Scripted.hass_with None)) = Raised InvalidAuth /\
  services_registered
    (events (validate_input (vendor := Scripted.V_refresh_fails KeyError)
               Scripted.cfg_a (Scripted.hass_with None)))
  = ["light_flash"; "sound_horn"; "activate_air_conditioning"] /\
  time_triggers
    (events (validate_input (vendor := Scripted.V_refresh_fails KeyError)
               Scripted.cfg_a (Scripted.hass_with None)))
  = [time_pattern Scripted.noon].
Proof.
  split; [reflexivity|].
  exact (validate_input_registers (vendor := Scripted.V_refresh_fails KeyError)
           Scripted.cfg_a (Scripted.hass_with None)
           (Scripted.account_of (Scripted.failing KeyError) []) eq_refl).
Defined.

Lemma async_step_user_aborts_before_probe_witness :
  async_step_user (vendor := Scripted.V) (Some Scripted.cfg_a)
    {| data := Some []; configured_unique_ids := ["North America-a"];
       utcnow := Scripted.noon |}
  = Ran {| data := Some []; configured_unique_ids := ["North America-a"];
           utcnow := Scripted.noon |} [] (Raised AbortFlow).
Proof.
  exact (async_step_user_aborts_before_probe (vendor := Scripted.V)
           Scripted.cfg_a
           {| data := Some []; configured_unique_ids := ["North America-a"];
              utcnow := Scripted.noon |} eq_refl).
Defined.

Lemma async_step_user_creates_entry_witness :
  result (async_step_user (vendor := Scripted.V) (Some Scripted.cfg_a)
            (Scripted.hass_with None))
  = Returned (CreateEntry "a" Scripted.cfg_a) /\
  final (async_step_user (vendor := Scripted.V) (Some Scripted.cfg_a)
           (Scripted.hass_with None)) = Scripted.hass_with None.
Proof.
  exact (async_step_user_creates_entry (vendor := Scripted.V)
           Scripted.cfg_a (Scripted.hass_with None)
           (Scripted.account_of (Scripted.online ["WBA1234"]) [])
           eq_refl eq_refl eq_refl).
Defined.

Lemma async_step_user_accepts_on_transport_error_witness :
  result (async_step_user (vendor := Scripted.V_refresh_fails ConnectionError)
            (Some Scripted.cfg_a) (Scripted.hass_with None))
  = Returned (CreateEntry "a" Scripted.cfg_a).
Proof.
  exact (async_step_user_accepts_on_transport_error
           (vendor := Scripted.V_refresh_fails ConnectionError)
           Scripted.cfg_a (Scripted.hass_with None)
           (Scripted.account_of (Scripted.failing ConnectionError) [])
           (Scripted.failing ConnectionError) ConnectionError
           eq_refl eq_refl eq_refl eq_refl).
Defined.

Lemma async_step_user_form_errors_witness :
  "user" = "user" /\
  ((Some Scripted.cfg_a = None /\ [("base", "invalid_auth")] = []) \/
   (Some Scripted.cfg_a <> None /\
    [("base", "invalid_auth")] = [("base", "invalid_auth")])).
Proof.
  exact (async_step_user_form_errors
           (vendor := Scripted.V_login_fails ConnectionError)
           (Some Scripted.cfg_a) (Scripted.hass_with None)
           "user" [("base", "invalid_auth")] eq_refl).
Defined.

(** ** Setup followed by unload *)

Section RoundTrip.

Context {session : Type} {vendor : VendorClient session}
        {host : HostFramework}.

Local Abbreviation Hass := (HomeAssistant session).
Local Abbreviation Account := (BMWConnectedDriveAccount session).

Lemma dict_get_none_keys {V : Type} (d : dict V) (k : string) :
  dict_get d k = None <-> ~ In k (dict_keys d).
Proof.
  induction d as [|[k0 v0] d IH]; cbn [dict_get dict_keys map fst In].
  - tauto.
  - destruct (String.eqb k k0) eqn:Hk.
    + apply String.eqb_eq in Hk. subst k0. split; [discriminate|].
      intro H. exfalso. apply H. now left.
    + apply String.eqb_neq in Hk. rewrite IH. unfold dict_keys.
      split; [intros H [Heq|Hin]; [congruence | now apply H] | tauto].
Qed.

Lemma dict_keys_set_absent {V : Type} (d : dict V) (k : string) (v : V) :
  dict_get d k = None -> dict_keys (dict_set d k v) = dict_keys d ++ [k].
Proof.
  induction d as [|[k0 v0] d IH]; cbn [dict_get dict_set]; [reflexivity|].
  destruct (String.eqb k k0); [discriminate|].
  intro H. cbn [dict_keys map fst app]. f_equal. now apply IH.
Qed.

Lemma dict_keys_remove_last {V : Type} (d : dict V) (K : list string)
    (k : string) :
  dict_keys d = K ++ [k] -> ~ In k K -> dict_keys (dict_remove d k) = K.
Proof.
  revert K. induction d as [|[k0 v0] d IH]; intros K HK Hn.
  - destruct K; discriminate HK.
  - cbn [dict_keys map fst] in HK. cbn [dict_remove].
    destruct K as [|k1 K]; cbn [app] in HK.
    + injection HK as -> Hd. rewrite String.eqb_refl.
      destruct d; [reflexivity | discriminate Hd].
    + injection HK as -> Hd.
      destruct (String.eqb k k1) eqn:Hk.
      * apply String.eqb_eq in Hk. subst k1. exfalso. apply Hn. now left.
      * cbn [dict_keys map fst]. f_equal. apply IH; [exact Hd|].
        intro Hin. apply Hn. now right.
Qed.

(** The refresh of all accounts keeps the keys of the map. *)
Lemma update_all_keys (hass : Hass) (d : dict Account) :
  data hass = Some d ->
  exists d', data (final (_update_all hass)) = Some d' /\
             dict_keys d' = dict_keys d.
Proof.
  intro Hd. unfold _update_all.
  apply (bind_keeps
           (fun h : Hass => exists d', data h = Some d' /\
                                       dict_keys d' = dict_keys d)).
  - rewrite (data_domain_eq hass d Hd). now exists d.
  - intros d0 s1 H1.
    apply (for_each_keeps
             (fun h : Hass => exists d', data h = Some d' /\
                                         dict_keys d' = dict_keys d));
      [|exact H1].
    intros k s2 (d2 & Hd2 & Hk2). unfold update_entry. rewrite Hd2.
    destruct (dict_get d2 k) as [acc|] eqn:Hget.
    + destruct (update acc) as [acc' t r]. cbn [final set_data data].
      exists (dict_set d2 k acc'). split; [reflexivity|].
      now rewrite (dict_keys_set_present d2 k acc' acc Hget).
    + now exists d2.
Qed.

(** X27: a setup that returns, followed by an unload whose platform
    unloads all succeed: the unload returns true, and the map holds again
    exactly the entries it held before the setup, in the same order,
    unless the entry was the only account and the deregistration of a
    command did not succeed; the account then stays in the map. *)
Theorem setup_then_unload_restores_entries
    (entry : ConfigEntry) (hass : Hass) (d0 : dict Account) :
  data (setdefault_domain hass) = Some d0 ->
  dict_get d0 (entry_id entry) = None ->
  result (async_setup_entry entry hass) = Returned true ->
  forallb (async_forward_entry_unload (entry_id entry)) BMW_COMPONENTS
  = true ->
  result (async_unload_entry entry (final (async_setup_entry entry hass)))
  = Returned true /\
  if Nat.eqb (len d0) 0
     && negb (forallb (services_remove DOMAIN) COMMANDS)
  then
    entry_account
      (final (async_unload_entry entry
                (final (async_setup_entry entry hass))))
      (entry_id entry) <> None
  else
    (exists d2,
        data (final (async_unload_entry entry
                       (final (async_setup_entry entry hass)))) = Some d2 /\
        dict_keys d2 = dict_keys d0) /\
    entry_account
      (final (async_unload_entry entry
                (final (async_setup_entry entry hass))))
      (entry_id entry) = None.
Proof.
  intros Hd0 Hget0 Hret Hpl.
  (* the map after the setup *)
  assert (Hafter : exists d1,
             data (final (async_setup_entry entry hass)) = Some d1 /\
             dict_keys d1 = dict_keys d0 ++ [entry_id entry]).
  { rewrite async_setup_entry_eq in Hret |- *. cbv zeta in *.
    destruct (result (setup_and_refresh (entry_data entry)
                                        (setdefault_domain hass)))
      as [acc|e]; [|discriminate Hret].
    cbn [final].
    rewrite (finish_setup_final entry acc (setdefault_domain hass) d0 Hd0).
    destruct (update_all_keys
                (set_data (setdefault_domain hass)
                   (Some (dict_set d0 (entry_id entry) acc)))
                (dict_set d0 (entry_id entry) acc) eq_refl)
      as (d1 & Hd1 & Hk1).
    exists d1. split; [exact Hd1|].
    now rewrite Hk1, (dict_keys_set_absent d0 (entry_id entry) acc Hget0). }
  destruct Hafter as (d1 & Hd1 & Hk1).
  assert (Hin : In (entry_id entry) (dict_keys d1)).
  { rewrite Hk1. apply in_or_app. right. now left. }
  destruct (dict_get d1 (entry_id entry)) as [acc1|] eqn:Hget1.
  2:{ exfalso. apply (proj1 (dict_get_none_keys d1 _) Hget1). exact Hin. }
  assert (Hlast : Nat.eqb (len d1) 1 = Nat.eqb (len d0) 0).
  { assert (Hlen : len d1 = S (len d0)).
    { unfold len. rewrite <- (length_map fst d1), <- (length_map fst d0).
      fold (dict_keys d1). fold (dict_keys d0).
      rewrite Hk1, length_app. cbn. lia. }
    rewrite Hlen. reflexivity. }
  rewrite (async_unload_entry_eq entry _ d1 acc1 Hd1 Hget1). cbv zeta.
  rewrite Hpl, Hlast. cbn [andb result final].
  split; [reflexivity|].
  assert (Hk2 : dict_keys (dict_remove d1 (entry_id entry)) = dict_keys d0).
  { apply dict_keys_remove_last; [exact Hk1|].
    now apply dict_get_none_keys. }
  assert (Hrestored :
            (exists d2,
                data (set_data (final (async_setup_entry entry hass))
                        (Some (dict_remove d1 (entry_id entry)))) = Some d2 /\
                dict_keys d2 = dict_keys d0) /\
            entry_account
              (set_data (final (async_setup_entry entry hass))
                 (Some (dict_remove d1 (entry_id entry))))
              (entry_id entry) = None).
  { split.
    - exists (dict_remove d1 (entry_id entry)). now split.
    - unfold entry_account. cbn [set_data data].
      apply dict_get_none_keys. rewrite Hk2. now apply dict_get_none_keys. }
  destruct (Nat.eqb (len d0) 0); cbn [andb].
  - destruct (forallb (services_remove DOMAIN) COMMANDS); cbn [negb].
    + exact Hrestored.
    + unfold entry_account. rewrite Hd1, Hget1. discriminate.
  - exact Hrestored.
Qed.

End RoundTrip.

Lemma setup_then_unload_restores_entries_witness :
  result (async_unload_entry (host := Scripted.scripted_host true false)
            {| entry_id := "entry-z"; entry_data := Scripted.cfg_c |}
            (final (async_setup_entry (vendor := Scripted.V)
                      {| entry_id := "entry-z"; entry_data := Scripted.cfg_c |}
                      (Scripted.hass_with (Some Fleet.two_ok)))))
  = Returned true /\
  (exists d2,
      data (final (async_unload_entry
                     (host := Scripted.scripted_host true false)
                     {| entry_id := "entry-z"; entry_data := Scripted.cfg_c |}
                     (final (async_setup_entry (vendor := Scripted.V)
                               {| entry_id := "entry-z";
                                  entry_data := Scripted.cfg_c |}
                               (Scripted.hass_with (Some Fleet.two_ok))))))
      = Some d2 /\
      dict_keys d2 = ["entry-a"; "entry-b"]) /\
  entry_account
    (final (async_unload_entry (host := Scripted.scripted_host true false)
              {| entry_id := "entry-z"; entry_data := Scripted.cfg_c |}
              (final (async_setup_entry (vendor := Scripted.V)
                        {| entry_id := "entry-z";
                           entry_data := Scripted.cfg_c |}
                        (Scripted.hass_with (Some Fleet.two_ok))))))
    "entry-z" = None.
Proof.
  exact (setup_then_unload_restores_entries
           (vendor := Scripted.V)
           (host := Scripted.scripted_host true false)
           {| entry_id := "entry-z"; entry_data := Scripted.cfg_c |}
           (Scripted.hass_with (Some Fleet.two_ok)) Fleet.two_ok
           eq_refl eq_refl eq_refl eq_refl).
Defined.
